(** * RobotKinematics: a shallow embedding of [src/src/RobotKinematics.ts]

    JavaScript numbers are IEEE 754 binary64 values; they are modelled by
    Rocq's primitive floats, so that [+ - * /], the comparisons and
    [Math.abs] are exactly the JavaScript ones.  [Math.sqrt] is taken to be
    the correctly rounded square root of IEEE 754, which is what the engines
    compute.  The other functions of [Math] that the program calls ([cos],
    [sin], [acos], [atan2], [pow]) are left to the engine by ECMAScript
    ("implementation-approximated"): the embedding takes them as the fields
    of a record, and every theorem holds for every engine.

    A method that can throw returns an [Outcome]; the [console.log] traces
    take no part in any result and are left out. *)

From Stdlib Require Import Floats String List Bool Arith ZArith QArith Qabs Lia.
From Stdlib Require Import DecimalString.
Import ListNotations.

Local Open Scope float_scope.

(** ** JavaScript values used by the program *)

(** [a > b] on numbers: false as soon as one side is NaN. *)
Definition gtb (a b : float) : bool := b <? a.

(** [Math.PI] is the binary64 value nearest to pi. *)
Definition Math_PI : float := 0x1.921fb54442d18p+1.

(** The part of [Math] whose results depend on the engine. *)
Record MathLib : Type := {
  Math_cos : float -> float;
  Math_sin : float -> float;
  Math_acos : float -> float;
  Math_atan2 : float -> float -> float;
  Math_pow : float -> float -> float
}.

(** What ECMAScript fixes for the arguments the program starts its sweep
    with: [Math.cos(+0)] is 1 and [Math.sin(+0)] is +0. *)
Definition conforming (M : MathLib) : Prop :=
  Math_cos M 0 = 1 /\ Math_sin M 0 = 0.

(** What ECMAScript fixes for a NaN argument: the result is NaN. *)
Definition propagatesNaN (M : MathLib) : Prop :=
  Math_acos M nan = nan /\ Math_cos M nan = nan /\ Math_sin M nan = nan
  /\ Math_pow M nan 2 = nan.

(** Errors a call can throw. *)
Inductive JsError : Type :=
| Error (message : string)
| TypeError (message : string)
| RangeError (message : string).

(** The outcome of running a function: a value, a thrown error, or a loop
    that was not finished within the fuel given to the model. *)
Inductive Outcome (A : Type) : Type :=
| Ok (a : A)
| Throw (e : JsError)
| OutOfFuel.
Arguments Ok {A} a.
Arguments Throw {A} e.
Arguments OutOfFuel {A}.

Definition bind {A B : Type} (c : Outcome A) (k : A -> Outcome B) : Outcome B :=
  match c with
  | Ok a => k a
  | Throw e => Throw e
  | OutOfFuel => OutOfFuel
  end.

Notation "x <- c ;; k" := (bind c (fun x => k))
  (at level 61, c at next level, right associativity).

(** Template-literal rendering of an array length. *)
Definition show_nat (n : nat) : string := NilEmpty.string_of_uint (Nat.to_uint n).

(** [Array.prototype.map] with the index passed to the callback. *)
Fixpoint mapi_from {A B : Type} (f : A -> nat -> B) (i : nat) (l : list A) : list B :=
  match l with
  | [] => []
  | x :: l' => f x i :: mapi_from f (S i) l'
  end.

Definition mapi {A B : Type} (f : A -> nat -> B) (l : list A) : list B :=
  mapi_from f 0 l.

(** [Array.prototype.reduce] without an initial value, for a callback that
    may throw: the first element seeds the accumulator, and an empty array
    is a [TypeError]. *)
Fixpoint reduce_from {A : Type} (f : A -> A -> Outcome A) (acc : A) (l : list A)
  : Outcome A :=
  match l with
  | [] => Ok acc
  | x :: l' => acc' <- f acc x ;; reduce_from f acc' l'
  end.

Definition reduce {A : Type} (f : A -> A -> Outcome A) (l : list A) : Outcome A :=
  match l with
  | [] => Throw (TypeError "Reduce of empty array with no initial value")
  | x :: l' => reduce_from f x l'
  end.

(** [jointAngles[i]]: reading past the end gives [undefined], which the
    arithmetic that follows turns into NaN. *)
Definition index_or_nan (l : list float) (i : nat) : float := nth i l nan.

(** ** Dense matrices of mathjs

    [mathjs] is a dependency of the program.  Its dense matrices are
    modelled as it implements them: a product entry is the sum, taken from
    left to right, of the products of a row with a column, and an index or a
    dimension that does not fit throws. *)

Module Matrix.

(** A dense matrix is the array of its rows. *)
Definition t : Type := list (list float).

Definition rows (m : t) : nat := length m.
Definition columns (m : t) : nat := length (hd [] m).

(** [m.get([i, j])]: an index outside the matrix throws. *)
Definition get (m : t) (i j : nat) : Outcome float :=
  match nth_error m i with
  | None => Throw (RangeError "Index out of range")
  | Some row =>
      match nth_error row j with
      | None => Throw (RangeError "Index out of range")
      | Some v => Ok v
      end
  end.

Definition column (j : nat) (m : t) : list float := map (fun row => nth j row nan) m.

(** One entry of a product: the first term starts the sum, the others are
    added to it from left to right. *)
Definition dot (row col : list float) : float :=
  match row, col with
  | r0 :: row', c0 :: col' =>
      fold_left (fun sum rc => sum + fst rc * snd rc) (combine row' col') (r0 * c0)
  | _, _ => nan
  end.

(** The product of two matrices taken as total function. *)
Definition product (a b : t) : t :=
  map (fun row => map (fun j => dot row (column j b)) (seq 0 (columns b))) a.

(** [math.multiply(a, b)]: the columns of [a] must match the rows of [b]. *)
Definition multiply (a b : t) : Outcome t :=
  if (columns a =? rows b)%nat then Ok (product a b)
  else Throw (RangeError "Dimension mismatch in multiplication. Columns of A must match rows of B").

(** Sequencing of a list of outcomes, left to right. *)
Fixpoint sequence {A : Type} (l : list (Outcome A)) : Outcome (list A) :=
  match l with
  | [] => Ok []
  | c :: l' => x <- c ;; xs <- sequence l' ;; Ok (x :: xs)
  end.

(** [math.subset(m, math.index(rs, cs))]: the sub-matrix on the given rows
    and columns. *)
Definition subset (m : t) (rs cs : list nat) : Outcome t :=
  sequence (map (fun i => sequence (map (fun j => get m i j) cs)) rs).

(** A well-formed [n] by [k] matrix. *)
Definition shaped (n k : nat) (m : t) : Prop :=
  length m = n /\ Forall (fun row => length row = k) m.

(** An entry read without the bounds check of [get]. *)
Definition entry (m : t) (i j : nat) : float := nth j (nth i m []) nan.

End Matrix.

(** ** The data model *)

Inductive JointType : Type := revolute | prismatic.

Record Point3D : Type := { x : float; y : float; z : float }.

Record DHParameters : Type := {
  theta : float;
  d : float;
  a : float;
  alpha : float
}.

Record JointLimit : Type := { min : float; max : float }.

Record RobotConfig : Type := {
  name : string;
  description : string;
  dhParameters : list DHParameters;
  jointLimits : list JointLimit;
  jointTypes : list JointType;
  baseOffset : Point3D;
  toolOffset : Point3D
}.

Record IKResult : Type := {
  solutions : list (list float);
  valid : bool
}.

Record Pose : Type := {
  position : float * float * float;
  orientation : Matrix.t
}.

(** A candidate kept by a sweep of the inverse solver. *)
Record Candidate : Type := {
  solution : list float;
  error : float
}.

(** ** The class [RobotKinematics] *)

Section RobotKinematics.

Variable M : MathLib.
Variable config : RobotConfig.

(** The constructor stores the number of joints once; the field is private
    and never written again.  (It also stores the transforms at angle zero,
    in a field that no method reads.) *)
Definition numJoints : nat := length (dhParameters config).

Definition calculateDHTransform (params : DHParameters) (jointAngle : float) : Matrix.t :=
  let ct := Math_cos M (theta params + jointAngle) in
  let st := Math_sin M (theta params + jointAngle) in
  let ca := Math_cos M (alpha params) in
  let sa := Math_sin M (alpha params) in
  [ [ct; - st * ca; st * sa; a params * ct];
    [st; ct * ca; - ct * sa; a params * st];
    [0; sa; ca; d params];
    [0; 0; 0; 1] ].

Definition calculateForwardKinematics (jointAngles : list float) : Outcome Pose :=
  if negb (length jointAngles =? numJoints)%nat then
    Throw (Error ("Expected " ++ show_nat numJoints ++ " joint angles, got "
                  ++ show_nat (length jointAngles))%string)
  else
    let transforms :=
      mapi (fun params i => calculateDHTransform params (index_or_nan jointAngles i))
           (dhParameters config) in
    finalTransform <- reduce Matrix.multiply transforms ;;
    p0 <- Matrix.get finalTransform 0 3 ;;
    p1 <- Matrix.get finalTransform 1 3 ;;
    p2 <- Matrix.get finalTransform 2 3 ;;
    orientation <- Matrix.subset finalTransform [0; 1; 2]%nat [0; 1; 2]%nat ;;
    Ok {| position := (p0, p1, p2); orientation := orientation |}.

Definition getNumJoints : nat := numJoints.

Definition getWorkspaceRadius : float :=
  fold_left (fun sum params => sum + a params) (dhParameters config) 0.

(** *** Inverse kinematics

    The optional [targetOrientation] argument is never read, and the
    [console.log] traces do not take part in the result; both are left out. *)

Definition stepSize : float := Math_PI / 180.

(** [for (let theta1 = start; theta1 < 2 * Math.PI; theta1 += stepSize) body],
    where [continue] is a body that hands its state back unchanged. *)
Fixpoint sweep {S : Type} (fuel : nat) (body : float -> S -> Outcome S)
    (theta1 : float) (st : S) : Outcome S :=
  if theta1 <? 2 * Math_PI then
    match fuel with
    | O => OutOfFuel
    | Datatypes.S fuel' =>
        st' <- body theta1 st ;; sweep fuel' body (theta1 + stepSize) st'
    end
  else Ok st.

(** Iterations granted to one sweep; [sweep_finishes] shows they suffice. *)
Definition sweepFuel : nat := 400.

(** [Math.sqrt(Math.pow(p[0] - x, 2) + Math.pow(p[1] - y, 2) + Math.pow(p[2] - z, 2))] *)
Definition positionError (p : float * float * float) (x y z : float) : float :=
  let '(p0, p1, p2) := p in
  sqrt (Math_pow M (p0 - x) 2 + Math_pow M (p1 - y) 2 + Math_pow M (p2 - z) 2).

(** [if (bestSolution === null || error < bestSolution.error)
       bestSolution = { solution, error }] *)
Definition keepBest (bestSolution : option Candidate) (c : Candidate) : option Candidate :=
  match bestSolution with
  | None => Some c
  | Some best => if error c <? error best then Some c else bestSolution
  end.

(** The literal [0.1], read as the nearest binary64 value. *)
Definition tolerance : float := 0x1.999999999999ap-4.

(** [if (error < 0.1 && (elbowUpSolution === null || error < elbowUpSolution.error))
       elbowUpSolution = { solution, error }] *)
Definition keepBestWithin (elbowUpSolution : option Candidate) (c : Candidate)
  : option Candidate :=
  if (error c <? tolerance)
     && match elbowUpSolution with
        | None => true
        | Some up => error c <? error up
        end
  then Some c else elbowUpSolution.

(** The body of the first loop. *)
Definition elbowDownStep (x y z a1 a2 a3 d1 d2 : float)
    (theta1 : float) (bestSolution : option Candidate) : Outcome (option Candidate) :=
  let shoulderX := a1 * Math_cos M theta1 in
  let shoulderY := a1 * Math_sin M theta1 in
  let shoulderZ := d1 + d2 in
  let dx := x - shoulderX in
  let dy := y - shoulderY in
  let dz := z - shoulderZ in
  let shoulderToTarget := sqrt (dx * dx + dy * dy + dz * dz) in
  if gtb shoulderToTarget (a2 + a3) then Ok bestSolution else
  let cosTheta3 :=
    (a2 * a2 + a3 * a3 - shoulderToTarget * shoulderToTarget) / (2 * a2 * a3) in
  if gtb (abs cosTheta3) 1 then Ok bestSolution else
  let theta3 := Math_acos M cosTheta3 in
  let cosTheta2 :=
    (a2 * a2 + shoulderToTarget * shoulderToTarget - a3 * a3)
    / (2 * a2 * shoulderToTarget) in
  if gtb (abs cosTheta2) 1 then Ok bestSolution else
  let alpha := Math_acos M cosTheta2 in
  let beta := Math_atan2 M dz (sqrt (dx * dx + dy * dy)) in
  let theta2 := beta - alpha in
  let solution := [theta1; theta2; theta3] in
  fkResult <- calculateForwardKinematics solution ;;
  let error := positionError (position fkResult) x y z in
  Ok (keepBest bestSolution (Build_Candidate solution error)).

(** The body of the second loop. *)
Definition elbowUpStep (x y z a1 a2 a3 d1 d2 invertedTheta3 : float)
    (theta1 : float) (elbowUpSolution : option Candidate) : Outcome (option Candidate) :=
  let shoulderX := a1 * Math_cos M theta1 in
  let shoulderY := a1 * Math_sin M theta1 in
  let shoulderZ := d1 + d2 in
  let dx := x - shoulderX in
  let dy := y - shoulderY in
  let dz := z - shoulderZ in
  let shoulderToTarget := sqrt (dx * dx + dy * dy + dz * dz) in
  if gtb shoulderToTarget (a2 + a3) then Ok elbowUpSolution else
  let cosTheta2 :=
    (a2 * a2 + shoulderToTarget * shoulderToTarget - a3 * a3)
    / (2 * a2 * shoulderToTarget) in
  if gtb (abs cosTheta2) 1 then Ok elbowUpSolution else
  let alpha := Math_acos M cosTheta2 in
  let beta := Math_atan2 M dz (sqrt (dx * dx + dy * dy)) in
  let newTheta2 := beta - alpha in
  let solution := [theta1; newTheta2; invertedTheta3] in
  fkResult <- calculateForwardKinematics solution ;;
  let error := positionError (position fkResult) x y z in
  Ok (keepBestWithin elbowUpSolution (Build_Candidate solution error)).

(** [this.config.dhParameters[i]], whose field is then read. *)
Definition dhParameter (i : nat) : Outcome DHParameters :=
  match nth_error (dhParameters config) i with
  | Some params => Ok params
  | None => Throw (TypeError "Cannot read properties of undefined")
  end.

Definition noSolution : IKResult := {| solutions := []; valid := false |}.

(** The method, with the fuel its two loops may use. *)
Definition inverseKinematicsWithin (fuel : nat) (targetPosition : float * float * float)
  : Outcome IKResult :=
  if negb (numJoints =? 3)%nat then Ok noSolution else
  let '(x, y, z) := targetPosition in
  j0 <- dhParameter 0 ;;
  j1 <- dhParameter 1 ;;
  j2 <- dhParameter 2 ;;
  let a1 := a j0 in
  let a2 := a j1 in
  let a3 := a j2 in
  let d1 := d j0 in
  let d2 := d j1 in
  let r := sqrt (x * x + y * y) in
  let maxReach := a1 + a2 + a3 in
  if gtb r maxReach then Ok noSolution else
  bestSolution <- sweep fuel (elbowDownStep x y z a1 a2 a3 d1 d2) 0 None ;;
  match bestSolution with
  | None => Ok noSolution
  | Some best =>
      let theta3 := index_or_nan (solution best) 2 in
      let invertedTheta3 := - theta3 in
      elbowUpSolution <-
        sweep fuel (elbowUpStep x y z a1 a2 a3 d1 d2 invertedTheta3) 0 None ;;
      let solutions := [] ++ [solution best] in
      let solutions :=
        match elbowUpSolution with
        | Some up => solutions ++ [solution up]
        | None => solutions
        end in
      Ok {| solutions := solutions; valid := true |}
  end.

Definition calculateInverseKinematics (targetPosition : float * float * float)
  : Outcome IKResult :=
  inverseKinematicsWithin sweepFuel targetPosition.

Definition isReachable (targetPosition : float * float * float) : Outcome bool :=
  result <- calculateInverseKinematics targetPosition ;;
  Ok (valid result).

End RobotKinematics.

(** ** A math library to run the program with

    Where a concrete run is wanted, the engine's functions are stood in for
    by series evaluated in binary64.  Nothing is proved about their
    accuracy: the general theorems speak of every engine, and the series
    only serve the runs on concrete inputs. *)

Module SeriesMath.

(** [sum + t1 + t2 + ...] where each term is the previous one times
    [- x2 / (i * (i + 1))], with [i] growing by two. *)
Fixpoint alternating (n : nat) (x2 term i sum : float) : float :=
  match n with
  | O => sum
  | S n' =>
      let term' := - term * x2 / (i * (i + 1)) in
      alternating n' x2 term' (i + 2) (sum + term')
  end.

Definition cos (v : float) : float := alternating 40 (v * v) 1 1 1.
Definition sin (v : float) : float := alternating 40 (v * v) v 2 v.

(** [t - t^3/3 + t^5/5 - ...], for small [t]. *)
Fixpoint gregory (n : nat) (t2 power k sum : float) : float :=
  match n with
  | O => sum
  | S n' =>
      let power' := - power * t2 in
      gregory n' t2 power' (k + 2) (sum + power' / k)
  end.

Definition halve (t : float) : float := t / (1 + sqrt (1 + t * t)).

Definition atan_unit (t : float) : float :=
  let u := halve (halve (halve t)) in
  8 * gregory 16 (u * u) u 3 u.

Definition atan (t : float) : float :=
  if 1 <? abs t then
    (if 0 <? t then Math_PI / 2 - atan_unit (1 / t) else - (Math_PI / 2) - atan_unit (1 / t))
  else atan_unit t.

Definition atan2 (v u : float) : float :=
  if 0 <? u then atan (v / u)
  else if u <? 0 then (if v <? 0 then atan (v / u) - Math_PI else atan (v / u) + Math_PI)
  else if 0 <? v then Math_PI / 2
  else if v <? 0 then - (Math_PI / 2)
  else v + u.

Definition acos (c : float) : float := atan2 (sqrt (1 - c * c)) c.

(** Only the exponents the program uses. *)
Definition pow (v e : float) : float :=
  if e =? 2 then v * v else if e =? 1 then v else if e =? 0 then 1 else nan.

Definition lib : MathLib :=
  {| Math_cos := cos; Math_sin := sin; Math_acos := acos;
     Math_atan2 := atan2; Math_pow := pow |}.

End SeriesMath.

(** ** Configurations

    The robots of the test suite, of the README and of the example program,
    and a few variations of them. *)

Definition origin : Point3D := {| x := 0; y := 0; z := 0 |}.

Definition fullTurn : JointLimit := {| min := - Math_PI; max := Math_PI |}.

(** A configuration with the given links and the limits, types and offsets
    every configuration of the repository has. *)
Definition robot (nm : string) (types : list JointType) (links : list DHParameters)
  : RobotConfig :=
  {| name := nm; description := nm;
     dhParameters := links;
     jointLimits := map (fun _ => fullTurn) links;
     jointTypes := types;
     baseOffset := origin; toolOffset := origin |}.

(** The literal [0.3], as a binary64 value. *)
Definition threeTenths : float := 0x1.3333333333333p-2.

(** The link of the test robot: length 0.3. *)
Definition testLink (twist : float) : DHParameters :=
  {| theta := 0; d := 0; a := threeTenths; alpha := twist |}.

(** The robot of [RobotKinematics.test.ts]. *)
Definition testRobot : RobotConfig :=
  robot "Test Robot" [revolute; revolute; revolute]
    [testLink (- Math_PI / 2); testLink (- Math_PI / 2); testLink 0].

(** The robot of the README: links 0.2, 0.3 and 0.2, base offset 0.1. *)
Definition readmeRobot : RobotConfig :=
  robot "README" [revolute; revolute; revolute]
    [ {| theta := 0; d := 0x1.999999999999ap-4; a := 0x1.999999999999ap-3; alpha := 0 |};
      {| theta := 0; d := 0; a := threeTenths; alpha := Math_PI / 2 |};
      {| theta := 0; d := 0; a := 0x1.999999999999ap-3; alpha := 0 |} ].

(** The links of the three-joint robot of the example program. *)
Definition baseLink : DHParameters :=
  {| theta := 0; d := 0x1.4cccccccccccdp-2; a := 0x1.ccccccccccccdp-3;
     alpha := - Math_PI / 2 |}.
Definition shoulderLink : DHParameters :=
  {| theta := 0; d := 0; a := 0x1.7851eb851eb85p-1; alpha := 0 |}.
Definition elbowLink : DHParameters :=
  {| theta := 0; d := 0; a := 0x1.6666666666666p-3; alpha := 0 |}.

(** The three-joint robot of the example program: links 0.225, 0.735 and
    0.175, base offset 0.325. *)
Definition threeDOFRobot : RobotConfig :=
  robot "3-DOF Test Robot" [revolute; revolute; revolute]
    [baseLink; shoulderLink; elbowLink].

(** The six-joint robot of the example program. *)
Definition sixDOFRobot : RobotConfig :=
  robot "Staubli RX90B" [revolute; revolute; revolute; revolute; revolute; revolute]
    [ baseLink; shoulderLink; elbowLink;
      {| theta := 0; d := 0x1.8cccccccccccdp-1; a := 0; alpha := - Math_PI / 2 |};
      {| theta := 0; d := 0; a := 0; alpha := Math_PI / 2 |};
      {| theta := 0; d := 0x1.999999999999ap-4; a := 0; alpha := 0 |} ].

(** A configuration with other declared joint types. *)
Definition withJointTypes (config : RobotConfig) (types : list JointType) : RobotConfig :=
  {| name := name config; description := description config;
     dhParameters := dhParameters config;
     jointLimits := jointLimits config;
     jointTypes := types;
     baseOffset := baseOffset config; toolOffset := toolOffset config |}.

(** The example robot with its three joints declared prismatic. *)
Definition prismaticRobot : RobotConfig :=
  withJointTypes threeDOFRobot [prismatic; prismatic; prismatic].

(** A two-link arm whose links measure 2^22 and 2^-31. *)
Definition unevenRobot : RobotConfig :=
  robot "uneven" [revolute; revolute]
    [ {| theta := 0; d := 0; a := 0x1p+22; alpha := 0 |};
      {| theta := 0; d := 0; a := 0x1p-31; alpha := 0 |} ].

(** The literals [0.9] and [1e-10] of the test, as binary64 values. *)
Definition nineTenths : float := 0x1.ccccccccccccdp-1.
Definition tenthOfNano : float := 0x1.b7cdfd9d7bdbbp-34.

(** The example robot with joints limited to a quarter turn either way, set
    one unit above the floor and carrying a tool half a unit long. *)
Definition mountedRobot : RobotConfig :=
  {| name := "mounted"; description := "mounted";
     dhParameters := dhParameters threeDOFRobot;
     jointLimits :=
       map (fun _ => {| min := - Math_PI / 4; max := Math_PI / 4 |})
           (dhParameters threeDOFRobot);
     jointTypes := jointTypes threeDOFRobot;
     baseOffset := {| x := 0; y := 0; z := 1 |};
     toolOffset := {| x := 0; y := 0; z := 0.5 |} |}.

(** The links of the README robot, each declared at a quarter turn. *)
Definition turnedLinks : list DHParameters :=
  map (fun params => {| theta := Math_PI / 2; d := d params; a := a params;
                        alpha := alpha params |})
      (dhParameters readmeRobot).

(** * The rest of the program *)

(** ** The earlier version of the class

    [src/src/RobotKinematics.ts] also holds the version the README speaks
    of: the constructor takes the list of DH parameters alone, and a joint
    angle replaces the [theta] of its joint instead of being added to it. *)

Module Legacy.

Section Legacy.

Variable M : MathLib.
Variable dhParams : list DHParameters.

Definition numJoints : nat := length dhParams.

Definition calculateJointTransform (params : DHParameters) : Matrix.t :=
  let ct := Math_cos M (theta params) in
  let st := Math_sin M (theta params) in
  let ca := Math_cos M (alpha params) in
  let sa := Math_sin M (alpha params) in
  [ [ct; - st * ca; st * sa; a params * ct];
    [st; ct * ca; - ct * sa; a params * st];
    [0; sa; ca; d params];
    [0; 0; 0; 1] ].

(** [let finalTransform = transforms[0];
     for (let i = 1; i < transforms.length; i++)
       finalTransform = math.multiply(finalTransform, transforms[i]);]
    where [None] is the [undefined] read from an empty array. *)
Definition multiplyInOrder (transforms : list Matrix.t) : Outcome (option Matrix.t) :=
  match transforms with
  | [] => Ok None
  | first :: others =>
      finalTransform <- reduce_from Matrix.multiply first others ;;
      Ok (Some finalTransform)
  end.

Definition calculateForwardKinematics (jointAngles : list float) : Outcome Pose :=
  if negb (length jointAngles =? numJoints)%nat then
    Throw (Error ("Expected " ++ show_nat numJoints ++ " joint angles, got "
                  ++ show_nat (length jointAngles))%string)
  else
    let currentDHParams :=
      mapi (fun params index =>
              {| theta := index_or_nan jointAngles index;
                 d := d params; a := a params; alpha := alpha params |})
           dhParams in
    let transforms := map calculateJointTransform currentDHParams in
    final <- multiplyInOrder transforms ;;
    match final with
    | None => Throw (TypeError "Cannot read properties of undefined (reading 'get')")
    | Some finalTransform =>
        p0 <- Matrix.get finalTransform 0 3 ;;
        p1 <- Matrix.get finalTransform 1 3 ;;
        p2 <- Matrix.get finalTransform 2 3 ;;
        orientation <- Matrix.subset finalTransform [0; 1; 2]%nat [0; 1; 2]%nat ;;
        Ok {| position := (p0, p1, p2); orientation := orientation |}
    end.

Definition getNumJoints : nat := numJoints.

End Legacy.

End Legacy.

(** ** The bundled configurations: [src/src/configs/robotConfigs.js]

    The three JSON files the module imports are not part of what is
    modelled; their contents are the parameters of the section. *)

Module RobotConfigs.

(** What [configs[robotName]] can evaluate to: a bundled configuration, or a
    member that the object literal inherits from [Object.prototype]. *)
Inductive Member : Type :=
| Configuration (config : RobotConfig)
| Inherited (property : string).

(** The properties every object literal inherits (the last five come from
    Annex B of ECMAScript, which browsers and Node implement). *)
Definition objectPrototype : list string :=
  [ "constructor"; "hasOwnProperty"; "isPrototypeOf"; "propertyIsEnumerable";
    "toLocaleString"; "toString"; "valueOf";
    "__proto__"; "__defineGetter__"; "__defineSetter__";
    "__lookupGetter__"; "__lookupSetter__" ]%string.

Section RobotConfigs.

Variables staubliConfig kukaConfig abbConfig : RobotConfig.

(** The object literal [configs], as the list of its own properties. *)
Definition configs : list (string * RobotConfig) :=
  [ ("staubli_rx90b", staubliConfig);
    ("kuka_kr6", kukaConfig);
    ("abb_irb120", abbConfig) ]%string.

Fixpoint ownProperty (properties : list (string * RobotConfig)) (key : string)
  : option RobotConfig :=
  match properties with
  | [] => None
  | (k, v) :: properties' => if String.eqb k key then Some v else ownProperty properties' key
  end.

(** [configs[robotName]]: an own property first, then the prototype;
    [None] is [undefined]. *)
Definition lookup (robotName : string) : option Member :=
  match ownProperty configs robotName with
  | Some config => Some (Configuration config)
  | None =>
      if existsb (String.eqb robotName) objectPrototype
      then Some (Inherited robotName) else None
  end.

(** Every member that can be found is an object or a function, hence
    truthy; the promise of the [async] function is modelled by its
    outcome, a rejection being a throw. *)
Definition loadRobotConfig (robotName : string) : Outcome Member :=
  match lookup robotName with
  | None => Throw (Error ("Robot configuration not found: " ++ robotName)%string)
  | Some member => Ok member
  end.

End RobotConfigs.

(** The values of the options of the select box in the page that
    [scripts/build-standalone.js] writes. *)
Definition selectOptions : list string :=
  [ "staubli_rx90b"; "kuka_kr6"; "abb_irb120" ]%string.

End RobotConfigs.

(** ** The visualizer

    Of the class [RobotVisualizer] the model keeps what decides the calls
    into the kinematics: the robot, the joint angles, and which sliders
    exist.  Scene, camera and rendering are left out, and the elements the
    methods look up in the page are taken to be there.  The method
    [updateRobotModel] is the one of the later of the two versions of the
    file, which chains the joint transforms. *)

Module Visualizer.

Record t : Type := {
  robot : option RobotConfig;
  jointAngles : list float;
  (** the number of children of the element [joint-controls]: control [i]
      carries the handlers that write [jointAngles[i]] *)
  jointControls : nat
}.

(** What a call of [updateRobotModel] shows: the position written in the
    element [position] (before [toFixed]) and the points at which the
    joints are drawn, the last of which carries the tripod. *)
Record Drawn : Type := {
  shownPosition : float * float * float;
  jointPoints : list (float * float * float)
}.

(** The constructor: no robot, no angles, and an empty page. *)
Definition initial : t := {| robot := None; jointAngles := []; jointControls := 0 |}.

(** [array[index] = v]: within the array the element is replaced; past its
    end the array grows, and the holes read as [undefined]. *)
Definition assign (array : list float) (index : nat) (v : float) : list float :=
  if (index <? length array)%nat
  then firstn index array ++ v :: skipn (S index) array
  else array ++ repeat nan (index - length array) ++ [v].

Section Visualizer.

Variable M : MathLib.

(** The loop that fills [transforms]: the transform of joint [i], multiplied
    on the right of the entry before it unless it is the first. *)
Fixpoint cumulativeTransforms (angles : list float) (i : nat)
    (parameters : list DHParameters) (transforms : list Matrix.t)
  : Outcome (list Matrix.t) :=
  match parameters with
  | [] => Ok transforms
  | params :: parameters' =>
      let transform := calculateDHTransform M params (index_or_nan angles i) in
      transforms' <-
        (if (i =? 0)%nat then Ok (transforms ++ [transform])
         else
           match nth_error transforms (i - 1) with
           | None => Throw (TypeError "Unexpected type of argument in function multiply")
           | Some previous =>
               cumulated <- Matrix.multiply previous transform ;;
               Ok (transforms ++ [cumulated])
           end) ;;
      cumulativeTransforms angles (S i) parameters' transforms'
  end.

(** [new THREE.Vector3(transformArray[0][3], transformArray[1][3],
    transformArray[2][3])] *)
Definition pointOf (transform : Matrix.t) : float * float * float :=
  (Matrix.entry transform 0 3, Matrix.entry transform 1 3, Matrix.entry transform 2 3).

Definition updateRobotModel (v : t) : Outcome (option Drawn) :=
  match robot v with
  | None => Ok None
  | Some config =>
      result <- calculateForwardKinematics M config (jointAngles v) ;;
      transforms <- cumulativeTransforms (jointAngles v) 0 (dhParameters config) [] ;;
      Ok (Some {| shownPosition := position result;
                  jointPoints := map pointOf transforms |})
  end.

(** [loadRobot], from the point where the configuration has arrived: when
    the redraw throws, [updateJointControls] is not reached and the page
    keeps the controls it had. *)
Definition loadRobot (config : RobotConfig) (v : t) : t * Outcome (option Drawn) :=
  let angles := repeat 0 (length (dhParameters config)) in
  let v' := {| robot := Some config; jointAngles := angles;
               jointControls := jointControls v |} in
  match updateRobotModel v' with
  | Ok drawn =>
      ({| robot := Some config; jointAngles := angles;
          jointControls := length angles |}, Ok drawn)
  | failure => (v', failure)
  end.

(** The handlers of a slider and of its number field, for the number
    [parseFloat] read from the element. *)
Definition onInput (index : nat) (value : float) (v : t) : t * Outcome (option Drawn) :=
  let v' := {| robot := robot v;
               jointAngles := assign (jointAngles v) index (value * Math_PI / 180);
               jointControls := jointControls v |} in
  (v', updateRobotModel v').

(** What can happen to the page: a robot is chosen and its configuration
    arrives, or a control is moved. *)
Inductive Event : Type :=
| Load (config : RobotConfig)
| Input (index : nat) (value : float).

(** An event on a control that the page does not have cannot happen. *)
Definition handle (e : Event) (v : t) : t * Outcome (option Drawn) :=
  match e with
  | Load config => loadRobot config v
  | Input index value =>
      if (index <? jointControls v)%nat then onInput index value v else (v, Ok None)
  end.

(** The state after a sequence of events, and what each of them showed. *)
Fixpoint run (events : list Event) (v : t) : t * list (Outcome (option Drawn)) :=
  match events with
  | [] => (v, [])
  | e :: events' =>
      let '(v', shown) := handle e v in
      let '(v'', rest) := run events' v' in
      (v'', shown :: rest)
  end.

End Visualizer.

End Visualizer.

(** * The vocabulary of the properties

    Definitions that belong to no source function: they name what the
    theorems below speak about. *)

(** ** The forward chain, in the words of the specification *)

(** The zero link, read where an index runs past the configuration. *)
Definition noLink : DHParameters := {| theta := 0; d := 0; a := 0; alpha := 0 |}.

(** The words of the specification: the transform of joint [i] is the
    Denavit-Hartenberg transform of its parameters at its commanded angle... *)
Definition jointTransform (M : MathLib) (config : RobotConfig)
    (jointAngles : list float) (i : nat) : Matrix.t :=
  calculateDHTransform M (nth i (dhParameters config) noLink) (nth i jointAngles nan).

(** ...and the chain up to joint [n] is [T 0 * T 1 * ... * T n], each joint
    multiplied on the right of the joints before it. *)
Fixpoint chain (T : nat -> Matrix.t) (n : nat) : Matrix.t :=
  match n with
  | O => T O
  | S n' => Matrix.product (chain T n') (T n)
  end.

(** The pose read off a homogeneous transform: its translation column and
    its rotation block. *)
Definition poseOf (T : Matrix.t) : Pose :=
  let e := Matrix.entry T in
  {| position := (e 0 3, e 1 3, e 2 3)%nat;
     orientation := [ [e 0 0; e 0 1; e 0 2]%nat;
                      [e 1 0; e 1 1; e 1 2]%nat;
                      [e 2 0; e 2 1; e 2 2]%nat ] |}.

(** ** The two versions of the class *)

(** Links that differ at most in their declared [theta]. *)
Definition sameGeometry (p p' : DHParameters) : Prop :=
  d p = d p' /\ a p = a p' /\ alpha p = alpha p'.

(** The angles of the joints, each added to the declared [theta] of its
    joint. *)
Definition offsetAngles (config : RobotConfig) (jointAngles : list float) : list float :=
  mapi (fun params i => theta params + index_or_nan jointAngles i) (dhParameters config).

(** ** The page of the visualizer *)

(** The events after which the page is looked at load robots that have a
    joint. *)
Definition jointed (e : Visualizer.Event) : Prop :=
  match e with
  | Visualizer.Load config => (1 <= numJoints config)%nat
  | Visualizer.Input _ _ => True
  end.

(** One control per angle, and one angle per joint of the robot shown. *)
Definition consistent (v : Visualizer.t) : Prop :=
  Visualizer.jointControls v = length (Visualizer.jointAngles v)
  /\ forall config, Visualizer.robot v = Some config ->
       length (Visualizer.jointAngles v) = numJoints config
       /\ (1 <= numJoints config)%nat.

(** The page showing the README robot, at its zero angles and at others. *)
Definition readmePage (angles : list float) : Visualizer.t :=
  {| Visualizer.robot := Some readmeRobot;
     Visualizer.jointAngles := angles;
     Visualizer.jointControls := 3 |}.

(** A configuration without joints. *)
Definition jointlessRobot : RobotConfig := robot "jointless" [] [].

(** A session: the README robot is loaded and its second joint turned, then
    the six-joint robot is loaded and its last joint turned. *)
Definition session : list Visualizer.Event :=
  [ Visualizer.Load readmeRobot; Visualizer.Input 1 45;
    Visualizer.Load sixDOFRobot; Visualizer.Input 5 (-30) ].

(** ** Numbers *)

(** Two numbers that are the same but for the sign of a zero. *)
Definition alike (u v : spec_float) : Prop :=
  u = v \/ exists s s', u = S754_zero s /\ v = S754_zero s'.

(** The same relation on binary64 values. *)
Definition same (u v : float) : Prop := alike (Prim2SF u) (Prim2SF v).

(** The rational number a finite binary64 value stands for (zero for the
    values that stand for none). *)
Definition exactValue (v : float) : Q :=
  match Prim2SF v with
  | S754_finite s m e => (inject_Z (cond_Zopp s (Zpos m)) * Qpower 2 e)%Q
  | _ => 0%Q
  end.

(** The sum of the link lengths, taken in the rationals. *)
Definition exactLinkSum (config : RobotConfig) : Q :=
  fold_right Qplus 0%Q (map (fun params => exactValue (a params)) (dhParameters config)).

(** ** The sweeps *)

(** The base angles a sweep visits, in order, when the fuel lets the loop
    reach its exit. *)
Fixpoint sweepAngles (fuel : nat) (theta1 : float) : option (list float) :=
  if theta1 <? 2 * Math_PI then
    match fuel with
    | O => None
    | S fuel' => option_map (cons theta1) (sweepAngles fuel' (theta1 + stepSize))
    end
  else Some [].

(** With the fuel of the model the loop reaches its exit.  The list of the
    angles it visits is sealed, so that no proof unfolds it by accident;
    [sweep_finishes] below says which list it is. *)
Definition sweep_angles_computed : { l : list float | sweepAngles sweepFuel 0 = Some l }.
Proof. eexists. vm_compute. reflexivity. Qed.

(** The angles visited from zero. *)
Definition sweepThetas : list float := proj1_sig sweep_angles_computed.

(** The angle reached after [k] additions of the step to zero. *)
Definition steppedAngle (k : nat) : float := Nat.iter k (fun theta1 => theta1 + stepSize) 0.

(** A loop body run over a list of angles. *)
Fixpoint visit {S : Type} (body : float -> S -> Outcome S) (l : list float) (st : S)
  : Outcome S :=
  match l with
  | [] => Ok st
  | theta1 :: l' => st' <- body theta1 st ;; visit body l' st'
  end.

(** The candidate a loop body stores when it starts from no candidate. *)
Definition candidateOf (body : float -> option Candidate -> Outcome (option Candidate))
    (theta1 : float) : option Candidate :=
  match body theta1 None with
  | Ok stored => stored
  | _ => None
  end.

(** The candidates of a sweep, in the order the angles are visited. *)
Fixpoint candidates (body : float -> option Candidate -> Outcome (option Candidate))
    (l : list float) : list Candidate :=
  match l with
  | [] => []
  | theta1 :: l' =>
      match candidateOf body theta1 with
      | Some c => c :: candidates body l'
      | None => candidates body l'
      end
  end.

(** The candidate left after offering each one of a list to [keepBest]. *)
Definition select (cs : list Candidate) : option Candidate := fold_left keepBest cs None.

(** The selected candidate of a list: it stands at position [k], no
    candidate has a strictly smaller error, and every candidate before it
    has an error that is not smaller or equal. *)
Definition firstStrictlyBest (cs : list Candidate) (k : nat) (best : Candidate) : Prop :=
  nth_error cs k = Some best
  /\ (forall c, In c cs -> (error c <? error best) = false)
  /\ (forall i c, (i < k)%nat -> nth_error cs i = Some c ->
         (error c <=? error best) = false).

(** The result of the solver on three joints, with both loops replaced by
    the selection among their candidates. *)
Definition solved (M : MathLib) (config : RobotConfig) (j0 j1 j2 : DHParameters)
    (x y z : float) : IKResult :=
  let a1 := a j0 in
  let a2 := a j1 in
  let a3 := a j2 in
  let d1 := d j0 in
  let d2 := d j1 in
  if gtb (sqrt (x * x + y * y)) (a1 + a2 + a3) then noSolution else
  match select (candidates (elbowDownStep M config x y z a1 a2 a3 d1 d2) sweepThetas) with
  | None => noSolution
  | Some best =>
      {| solutions :=
           solution best ::
           match select (candidates
                           (elbowUpStep M config x y z a1 a2 a3 d1 d2
                              (- index_or_nan (solution best) 2))
                           sweepThetas) with
           | Some up => [solution up]
           | None => []
           end;
         valid := true |}
  end.

(** * Properties *)

(** ** Matrices of the forward chain *)

Module MatrixFacts.
Import Matrix.

Lemma shaped_rows n k m : shaped n k m -> rows m = n.
Proof. intros [H _]; exact H. Qed.

Lemma shaped_columns n k m : shaped (S n) k m -> columns m = k.
Proof.
  intros [Hlen Hrows]. destruct m as [|row m']; [discriminate|].
  unfold columns; simpl. now inversion Hrows.
Qed.

Lemma product_shaped n k p a b :
  shaped n (S k) a -> shaped (S k) p b -> shaped n p (product a b).
Proof.
  intros [Ha _] Hb. unfold product, shaped.
  rewrite length_map. split; [exact Ha|].
  apply Forall_forall. intros row Hin.
  apply in_map_iff in Hin. destruct Hin as [r [<- _]].
  rewrite length_map, length_seq. exact (shaped_columns _ _ _ Hb).
Qed.

Lemma multiply_shaped n k p a b :
  shaped (S n) (S k) a -> shaped (S k) p b -> multiply a b = Ok (product a b).
Proof.
  intros Ha Hb. unfold multiply.
  rewrite (shaped_columns _ _ _ Ha), (shaped_rows _ _ _ Hb), Nat.eqb_refl.
  reflexivity.
Qed.

Lemma get_shaped n k m i j :
  shaped n k m -> (i < n)%nat -> (j < k)%nat -> get m i j = Ok (entry m i j).
Proof.
  intros [Hlen Hrows] Hi Hj. unfold get, entry.
  destruct (nth_error m i) as [row|] eqn:Hrow.
  - assert (Hk : length row = k).
    { apply nth_error_In in Hrow. rewrite Forall_forall in Hrows. now apply Hrows. }
    rewrite (nth_error_nth _ _ [] Hrow).
    destruct (nth_error row j) as [v|] eqn:Hv.
    + now rewrite (nth_error_nth _ _ nan Hv).
    + apply nth_error_None in Hv. lia.
  - apply nth_error_None in Hrow. lia.
Qed.

(** Folding the product over square matrices never leaves the shape, so
    [reduce] never sees a dimension mismatch. *)
Lemma reduce_from_shaped k (l : list t) :
  Forall (shaped (S k) (S k)) l ->
  forall acc, shaped (S k) (S k) acc ->
    reduce_from multiply acc l = Ok (fold_left product l acc)
    /\ shaped (S k) (S k) (fold_left product l acc).
Proof.
  induction 1 as [|b l Hb _ IH]; intros acc Hacc; simpl.
  - split; [reflexivity | exact Hacc].
  - rewrite (multiply_shaped _ _ _ _ _ Hacc Hb). simpl.
    apply IH. exact (product_shaped _ _ _ _ _ Hacc Hb).
Qed.

End MatrixFacts.

Lemma mapi_from_seq {A B : Type} (f : A -> nat -> B) (dflt : A) (l : list A) :
  forall i, mapi_from f i l = map (fun k => f (nth (k - i) l dflt) k) (seq i (length l)).
Proof.
  induction l as [|v l IH]; intros i; simpl; [reflexivity|].
  rewrite Nat.sub_diag. f_equal. rewrite IH.
  apply map_ext_in. intros k Hk. apply in_seq in Hk.
  replace (k - i)%nat with (S (k - S i)) by lia. reflexivity.
Qed.

(** ** Forward kinematics *)

Section ForwardFacts.

Variable M : MathLib.
Variable config : RobotConfig.

Lemma calculateDHTransform_shaped params v :
  Matrix.shaped 4 4 (calculateDHTransform M params v).
Proof. split; [reflexivity | repeat constructor]. Qed.

Lemma chain_fold (T : nat -> Matrix.t) (n : nat) :
  fold_left Matrix.product (map T (seq 1 n)) (T O) = chain T n.
Proof.
  induction n as [|n IH]; [reflexivity|].
  rewrite seq_S, map_app, fold_left_app, IH. reflexivity.
Qed.

Lemma transforms_seq jointAngles :
  mapi (fun params i => calculateDHTransform M params (index_or_nan jointAngles i))
       (dhParameters config)
  = map (jointTransform M config jointAngles) (seq 0 (numJoints config)).
Proof.
  unfold mapi. rewrite (mapi_from_seq _ noLink).
  apply map_ext. intros k. now rewrite Nat.sub_0_r.
Qed.

Lemma poseOf_read T :
  Matrix.shaped 4 4 T ->
  (p0 <- Matrix.get T 0 3 ;;
   p1 <- Matrix.get T 1 3 ;;
   p2 <- Matrix.get T 2 3 ;;
   orientation <- Matrix.subset T [0; 1; 2]%nat [0; 1; 2]%nat ;;
   Ok {| position := (p0, p1, p2); orientation := orientation |}) = Ok (poseOf T).
Proof.
  intros HT. unfold Matrix.subset. simpl.
  repeat (rewrite (MatrixFacts.get_shaped 4 4 T _ _ HT) by lia; simpl).
  reflexivity.
Qed.

(** Whenever the number of angles is right and there is a joint, the call
    returns the pose of the chain. *)
Lemma forward_chain jointAngles n :
  numJoints config = S n ->
  length jointAngles = S n ->
  calculateForwardKinematics M config jointAngles
  = Ok (poseOf (chain (jointTransform M config jointAngles) n))
  /\ Matrix.shaped 4 4 (chain (jointTransform M config jointAngles) n).
Proof.
  intros Hn Hlen. unfold calculateForwardKinematics.
  rewrite Hlen, Hn, Nat.eqb_refl. simpl negb. cbv iota.
  rewrite transforms_seq, Hn.
  change (seq 0 (S n)) with (0%nat :: seq 1 n). rewrite map_cons.
  unfold reduce.
  destruct (MatrixFacts.reduce_from_shaped 3
              (map (jointTransform M config jointAngles) (seq 1 n))) with
    (acc := jointTransform M config jointAngles 0) as [Hred Hshape].
  - apply Forall_forall. intros T HT. apply in_map_iff in HT.
    destruct HT as [k [<- _]]. apply calculateDHTransform_shaped.
  - apply calculateDHTransform_shaped.
  - rewrite chain_fold in Hred, Hshape.
    rewrite Hred. cbn [bind]. split; [|exact Hshape].
    now apply poseOf_read.
Qed.

End ForwardFacts.

(** C1: for a configuration with at least one joint and as many angles as
    joints, [calculateForwardKinematics] returns (it does not throw) the
    pose of the chain [T 0 * T 1 * ... * T (n-1)], where [T i] is the
    Denavit-Hartenberg transform of joint [i] at the [i]-th angle and the
    product is taken left to right in joint order: the position is rows 0-2
    of column 3 of the chain, a 4 by 4 matrix, and the orientation is its
    top-left 3 by 3 block. *)
Theorem C1_forward_kinematics_is_the_chain
    (M : MathLib) (config : RobotConfig) (jointAngles : list float) :
  (1 <= numJoints config)%nat ->
  length jointAngles = numJoints config ->
  exists (T : Matrix.t) (pose : Pose),
    T = chain (fun i => calculateDHTransform M (nth i (dhParameters config) noLink)
                                               (nth i jointAngles nan))
              (numJoints config - 1)
    /\ Matrix.shaped 4 4 T
    /\ calculateForwardKinematics M config jointAngles = Ok pose
    /\ position pose
       = (Matrix.entry T 0 3, Matrix.entry T 1 3, Matrix.entry T 2 3)
    /\ orientation pose
       = map (fun i => map (Matrix.entry T i) [0; 1; 2]%nat) [0; 1; 2]%nat.
Proof.
  intros Hpos Hlen.
  destruct (numJoints config) as [|n] eqn:Hn; [lia|].
  destruct (forward_chain M config jointAngles n Hn Hlen) as [Hfk Hshape].
  exists (chain (jointTransform M config jointAngles) n),
         (poseOf (chain (jointTransform M config jointAngles) n)).
  replace (S n - 1)%nat with n by lia.
  repeat split; try assumption; try reflexivity; apply Hshape.
Qed.

Lemma C1_witness :
  (1 <= numJoints testRobot)%nat /\
  length [0; 0; 0] = numJoints testRobot /\
  exists (T : Matrix.t) (pose : Pose),
    T = chain (fun i => calculateDHTransform SeriesMath.lib
                          (nth i (dhParameters testRobot) noLink)
                          (nth i [0; 0; 0] nan))
              (numJoints testRobot - 1)
    /\ Matrix.shaped 4 4 T
    /\ calculateForwardKinematics SeriesMath.lib testRobot [0; 0; 0] = Ok pose
    /\ position pose
       = (Matrix.entry T 0 3, Matrix.entry T 1 3, Matrix.entry T 2 3)
    /\ orientation pose
       = map (fun i => map (Matrix.entry T i) [0; 1; 2]%nat) [0; 1; 2]%nat.
Proof.
  assert (H1 : (1 <= numJoints testRobot)%nat) by (vm_compute; lia).
  assert (H2 : length [0; 0; 0] = numJoints testRobot) by reflexivity.
  exact (conj H1 (conj H2
           (C1_forward_kinematics_is_the_chain SeriesMath.lib testRobot [0; 0; 0] H1 H2))).
Defined.

(** C2: [calculateDHTransform] is a total function of the joint parameters
    and the joint variable: with [th = theta + jointAngle] it returns the
    four rows [cos th, -sin th * cos alpha, sin th * sin alpha, a * cos th],
    [sin th, cos th * cos alpha, -cos th * sin alpha, a * sin th],
    [0, sin alpha, cos alpha, d] and [0, 0, 0, 1], a 4 by 4 matrix. *)
Theorem C2_dh_transform_matrix (M : MathLib) (params : DHParameters) (v : float) :
  let th := theta params + v in
  let al := alpha params in
  calculateDHTransform M params v
  = [ [Math_cos M th; - Math_sin M th * Math_cos M al;
       Math_sin M th * Math_sin M al; a params * Math_cos M th];
      [Math_sin M th; Math_cos M th * Math_cos M al;
       - Math_cos M th * Math_sin M al; a params * Math_sin M th];
      [0; Math_sin M al; Math_cos M al; d params];
      [0; 0; 0; 1] ]
  /\ Matrix.shaped 4 4 (calculateDHTransform M params v).
Proof.
  split; [reflexivity | apply calculateDHTransform_shaped].
Qed.

(** C7: with [N] joints configured and [M] angles given, [M] different from
    [N], [calculateForwardKinematics] throws an [Error] whose message is
    "Expected N joint angles, got M"; nothing is computed before it. *)
Theorem C7_mismatched_angle_count_throws
    (M : MathLib) (config : RobotConfig) (jointAngles : list float) :
  length jointAngles <> numJoints config ->
  calculateForwardKinematics M config jointAngles
  = Throw (Error ("Expected " ++ show_nat (numJoints config)
                  ++ " joint angles, got " ++ show_nat (length jointAngles))%string).
Proof.
  intros Hne. unfold calculateForwardKinematics.
  apply Nat.eqb_neq in Hne. now rewrite Hne.
Qed.

Lemma C7_witness :
  length [0; 0] <> numJoints testRobot /\
  calculateForwardKinematics SeriesMath.lib testRobot [0; 0]
  = Throw (Error "Expected 3 joint angles, got 2").
Proof.
  assert (H : length [0; 0] <> numJoints testRobot) by (vm_compute; lia).
  exact (conj H (C7_mismatched_angle_count_throws SeriesMath.lib testRobot [0; 0] H)).
Defined.

(** C10: on a configuration without joints the empty list of angles passes
    the length check, and the call still throws: [reduce] is given the empty
    list of transforms and no initial value. *)
Theorem C10_no_joints_throws (M : MathLib) (config : RobotConfig) :
  dhParameters config = [] ->
  length (@nil float) = numJoints config
  /\ calculateForwardKinematics M config []
     = Throw (TypeError "Reduce of empty array with no initial value").
Proof.
  intros Hnil. unfold calculateForwardKinematics, numJoints. rewrite Hnil.
  split; reflexivity.
Qed.

Lemma C10_witness :
  dhParameters (robot "none" [] []) = [] /\
  length (@nil float) = numJoints (robot "none" [] [])
  /\ calculateForwardKinematics SeriesMath.lib (robot "none" [] []) []
     = Throw (TypeError "Reduce of empty array with no initial value").
Proof.
  exact (conj eq_refl (C10_no_joints_throws SeriesMath.lib (robot "none" [] []) eq_refl)).
Defined.

(** ** Order and sums of binary64 numbers

    Facts about [<?], [<=?] and [+] obtained from their bit-level
    specification. *)

Module FloatOrder.

Ltac compare_cases :=
  repeat match goal with
  | H : context [Pos.compare_cont Eq ?p ?q] |- _ =>
      change (Pos.compare_cont Eq p q) with (Pos.compare p q) in H
  | |- context [Pos.compare_cont Eq ?p ?q] =>
      change (Pos.compare_cont Eq p q) with (Pos.compare p q)
  end;
  repeat match goal with
  | H : context [Z.compare ?u ?v] |- _ => destruct (Z.compare_spec u v)
  | |- context [Z.compare ?u ?v] => destruct (Z.compare_spec u v)
  | H : context [Pos.compare ?p ?q] |- _ => destruct (Pos.compare_spec p q)
  | |- context [Pos.compare ?p ?q] => destruct (Pos.compare_spec p q)
  end;
  simpl in *; subst; try discriminate; try reflexivity; try lia.

Ltac split_float u := destruct u as [[]|[]| |[] ? ?].

Ltac settle := simpl; intros; try discriminate; try reflexivity; compare_cases.

Lemma SFltb_trans u v w : SFltb u v = true -> SFltb v w = true -> SFltb u w = true.
Proof. unfold SFltb, SFcompare. split_float u; split_float v; split_float w; settle. Qed.

Lemma SFleb_ltb_trans u v w : SFleb u v = true -> SFltb v w = true -> SFltb u w = true.
Proof.
  unfold SFltb, SFleb, SFcompare. split_float u; split_float v; split_float w; settle.
Qed.

Lemma SFltb_irrefl u : SFltb u u = false.
Proof. unfold SFltb, SFcompare. split_float u; settle. Qed.

(** On numbers the order is total, and only numbers compare smaller. *)
Lemma SFltb_total u v :
  SFltb u v = false -> SFeqb u u = true -> SFeqb v v = true -> SFleb v u = true.
Proof. unfold SFltb, SFleb, SFeqb, SFcompare. split_float u; split_float v; settle. Qed.

Lemma SFltb_number u v : SFltb u v = true -> SFeqb u u = true.
Proof. unfold SFltb, SFeqb, SFcompare. split_float u; split_float v; settle. Qed.

Lemma ltb_total u v :
  (u <? v) = false -> (u =? u) = true -> (v =? v) = true -> (v <=? u) = true.
Proof. rewrite ltb_spec, leb_spec, !FloatAxioms.eqb_spec. apply SFltb_total. Qed.

Lemma ltb_number u v : (u <? v) = true -> (u =? u) = true.
Proof. rewrite ltb_spec, FloatAxioms.eqb_spec. apply SFltb_number. Qed.

(** NaN absorbs the arithmetic and compares with nothing. *)
Lemma mul_nan_l u : nan * u = nan.
Proof. apply Prim2SF_inj. rewrite mul_spec. reflexivity. Qed.

Lemma mul_nan_r u : u * nan = nan.
Proof.
  apply Prim2SF_inj. rewrite mul_spec. change (Prim2SF nan) with S754_nan.
  destruct (Prim2SF u); reflexivity.
Qed.

Lemma add_nan_l u : nan + u = nan.
Proof. apply Prim2SF_inj. rewrite add_spec. reflexivity. Qed.

Lemma add_nan_r u : u + nan = nan.
Proof.
  apply Prim2SF_inj. rewrite add_spec. change (Prim2SF nan) with S754_nan.
  destruct (Prim2SF u); reflexivity.
Qed.

Lemma sub_nan_l u : nan - u = nan.
Proof. apply Prim2SF_inj. rewrite sub_spec. reflexivity. Qed.

Lemma sub_nan_r u : u - nan = nan.
Proof.
  apply Prim2SF_inj. rewrite sub_spec. change (Prim2SF nan) with S754_nan.
  destruct (Prim2SF u); reflexivity.
Qed.

Lemma ltb_nan_r u : (u <? nan) = false.
Proof.
  rewrite ltb_spec. change (Prim2SF nan) with S754_nan.
  destruct (Prim2SF u); reflexivity.
Qed.

Lemma ltb_trans u v w : (u <? v) = true -> (v <? w) = true -> (u <? w) = true.
Proof. rewrite !ltb_spec. apply SFltb_trans. Qed.

Lemma leb_ltb_trans u v w : (u <=? v) = true -> (v <? w) = true -> (u <? w) = true.
Proof. rewrite !ltb_spec, leb_spec. apply SFleb_ltb_trans. Qed.

Lemma ltb_irrefl u : (u <? u) = false.
Proof. rewrite ltb_spec. apply SFltb_irrefl. Qed.

Lemma SFadd_zero_l u : alike (SF64add (S754_zero false) u) u.
Proof.
  destruct u as [[]| | |]; simpl; try (left; reflexivity).
  right. now exists false, true.
Qed.

Lemma SFadd_alike u u' w : alike u u' -> alike (SF64add u w) (SF64add u' w).
Proof.
  intros [->|[s [s' [-> ->]]]]; [left; reflexivity|].
  destruct w as [sw| | |]; simpl; try (left; reflexivity).
  right. destruct s, s', sw; eexists; eexists; split; reflexivity.
Qed.

Lemma SFltb_alike u u' w : alike u u' -> SFltb u w = SFltb u' w.
Proof.
  intros [->|[s [s' [-> ->]]]]; [reflexivity|].
  destruct w; reflexivity.
Qed.

Lemma same_refl u : same u u.
Proof. left; reflexivity. Qed.

Lemma add_zero_l u : same (0 + u) u.
Proof. unfold same. rewrite add_spec. apply SFadd_zero_l. Qed.

Lemma add_same u u' w : same u u' -> same (u + w) (u' + w).
Proof. unfold same. rewrite !add_spec. apply SFadd_alike. Qed.

Lemma ltb_same u u' w : same u u' -> (u <? w) = (u' <? w).
Proof. unfold same. rewrite !ltb_spec. apply SFltb_alike. Qed.

Lemma ltb_same_r u u' w : same u u' -> (w <? u) = (w <? u').
Proof.
  unfold same. rewrite !ltb_spec.
  intros [->|[s [s' [-> ->]]]]; [reflexivity|].
  destruct (Prim2SF w); reflexivity.
Qed.

End FloatOrder.

(** ** The angular sweep *)

Lemma sweep_finishes : sweepAngles sweepFuel 0 = Some sweepThetas.
Proof. exact (proj2_sig sweep_angles_computed). Qed.

(** There are 361 of them, not 360: 360 steps of the rounded pi/180 stay
    just below the rounded 2 pi. *)
Lemma sweepThetas_length : length sweepThetas = 361%nat.
Proof.
  generalize sweep_finishes. generalize sweepThetas. intros l H.
  vm_compute in H. injection H as <-. reflexivity.
Qed.

Lemma sweepThetas_head : exists l, sweepThetas = 0 :: l.
Proof.
  generalize sweep_finishes. generalize sweepThetas. intros l H.
  vm_compute in H. injection H as <-. eexists. reflexivity.
Qed.

Lemma sweepThetas_second : exists l, sweepThetas = 0 :: (0 + stepSize) :: l.
Proof.
  generalize sweep_finishes. generalize sweepThetas. intros l H.
  vm_compute in H. injection H as <-. eexists. vm_compute. reflexivity.
Qed.

Lemma sweep_visit {S : Type} (body : float -> S -> Outcome S) :
  forall fuel theta1 l, sweepAngles fuel theta1 = Some l ->
  forall st, sweep fuel body theta1 st = visit body l st.
Proof.
  induction fuel as [|fuel IH]; intros theta1 l Hl st;
    cbn [sweepAngles sweep] in *.
  - destruct (theta1 <? 2 * Math_PI); [discriminate|].
    injection Hl as <-. reflexivity.
  - destruct (theta1 <? 2 * Math_PI).
    + destruct (sweepAngles fuel (theta1 + stepSize)) as [l'|] eqn:Hl'; [|discriminate].
      injection Hl as <-. cbn [visit].
      destruct (body theta1 st); cbn [bind]; try reflexivity.
      now apply IH.
    + injection Hl as <-. reflexivity.
Qed.

(** A body that offers its candidate to [keepBest] leaves, after the sweep,
    the selection among the candidates. *)
Lemma visit_keepBest body :
  (forall theta1 st, body theta1 st
     = Ok (match candidateOf body theta1 with
           | Some c => keepBest st c
           | None => st
           end)) ->
  forall l st, visit body l st = Ok (fold_left keepBest (candidates body l) st).
Proof.
  intros Hbody. induction l as [|theta1 l IH]; intros st; simpl; [reflexivity|].
  rewrite Hbody. simpl. rewrite IH.
  destruct (candidateOf body theta1); reflexivity.
Qed.

Lemma sweep_select body :
  (forall theta1 st, body theta1 st
     = Ok (match candidateOf body theta1 with
           | Some c => keepBest st c
           | None => st
           end)) ->
  sweep sweepFuel body 0 None = Ok (select (candidates body sweepThetas)).
Proof.
  intros Hbody. rewrite (sweep_visit body _ _ _ sweep_finishes).
  now apply visit_keepBest.
Qed.

Lemma candidates_In body l c :
  In c (candidates body l) <->
  exists theta1, In theta1 l /\ body theta1 None = Ok (Some c).
Proof.
  induction l as [|t l IH]; simpl.
  - split; [intros [] | intros [? [[] _]]].
  - unfold candidateOf at 1.
    destruct (body t None) as [[c'|]| |] eqn:Hb; simpl; rewrite ?IH.
    + split.
      * intros [<-|[t' [Hin Ht']]]; [exists t; auto | exists t'; auto].
      * intros [t' [[<-|Hin] Ht']]; [left; congruence | right; exists t'; auto].
    + split.
      * intros [t' [Hin Ht']]; exists t'; auto.
      * intros [t' [[<-|Hin] Ht']]; [congruence | exists t'; auto].
    + split.
      * intros [t' [Hin Ht']]; exists t'; auto.
      * intros [t' [[<-|Hin] Ht']]; [congruence | exists t'; auto].
    + split.
      * intros [t' [Hin Ht']]; exists t'; auto.
      * intros [t' [[<-|Hin] Ht']]; [congruence | exists t'; auto].
Qed.

(** *** What [keepBest] selects *)

Lemma select_snoc cs c : select (cs ++ [c]) = keepBest (select cs) c.
Proof. unfold select. now rewrite fold_left_app. Qed.

Lemma select_none cs : select cs = None -> cs = [].
Proof.
  induction cs as [|c cs IH] using rev_ind; [reflexivity|].
  rewrite select_snoc. unfold keepBest.
  destruct (select cs) as [b|]; [|discriminate].
  destruct (error c <? error b); discriminate.
Qed.

(** The selected candidate is one of the list, none of the list has a
    strictly smaller error, and none before it has an error smaller or
    equal: among equal errors the first found stays. *)
Lemma select_some cs best :
  select cs = Some best ->
  exists k, nth_error cs k = Some best
    /\ (forall c, In c cs -> (error c <? error best) = false)
    /\ (forall i c, (i < k)%nat -> nth_error cs i = Some c ->
           (error c <=? error best) = false).
Proof.
  revert best. induction cs as [|c cs IH] using rev_ind; intros best; [discriminate|].
  rewrite select_snoc. unfold keepBest.
  destruct (select cs) as [b|] eqn:Hsel.
  - destruct (IH b eq_refl) as [k [Hk [Hmin Hfirst]]].
    assert (Hklt : (k < length cs)%nat) by (apply nth_error_Some; congruence).
    destruct (error c <? error b) eqn:Hlt; intros [= <-].
    + exists (length cs). repeat split.
      * rewrite nth_error_app2, Nat.sub_diag by lia. reflexivity.
      * intros c' Hin. apply in_app_or in Hin. destruct Hin as [Hin|[<-|[]]].
        -- destruct (error c' <? error c) eqn:Hc'; [|reflexivity].
           rewrite <- (Hmin c' Hin). symmetry.
           exact (FloatOrder.ltb_trans _ _ _ Hc' Hlt).
        -- apply FloatOrder.ltb_irrefl.
      * intros i c' Hi Hnth. rewrite nth_error_app1 in Hnth by lia.
        destruct (error c' <=? error c) eqn:Hc'; [|reflexivity].
        rewrite <- (Hmin c' (nth_error_In _ _ Hnth)). symmetry.
        exact (FloatOrder.leb_ltb_trans _ _ _ Hc' Hlt).
    + exists k. repeat split.
      * rewrite nth_error_app1 by lia. exact Hk.
      * intros c' Hin. apply in_app_or in Hin. destruct Hin as [Hin|[<-|[]]].
        -- now apply Hmin.
        -- exact Hlt.
      * intros i c' Hi Hnth. rewrite nth_error_app1 in Hnth by lia.
        now apply (Hfirst i).
  - intros [= <-]. apply select_none in Hsel. subst cs.
    exists 0%nat. repeat split.
    + intros c' [<-|[]]. apply FloatOrder.ltb_irrefl.
    + intros i c' Hi. lia.
Qed.

(** A candidate whose error is NaN, once kept, is never replaced. *)
Lemma keepBest_nan_stays c0 l :
  error c0 = nan -> fold_left keepBest l (Some c0) = Some c0.
Proof.
  intros Hnan. induction l as [|c l IH]; [reflexivity|].
  cbn [fold_left keepBest]. now rewrite Hnan, FloatOrder.ltb_nan_r.
Qed.

Lemma keepBest_number l :
  forall b, (error b =? error b) = true ->
  exists b', fold_left keepBest l (Some b) = Some b' /\ (error b' =? error b') = true.
Proof.
  induction l as [|c l IH]; intros b Hb; [now exists b|].
  cbn [fold_left keepBest].
  destruct (error c <? error b) eqn:Hlt; apply IH;
    [exact (FloatOrder.ltb_number _ _ Hlt) | exact Hb].
Qed.

(** When the error of the first candidate is a number, the selected
    candidate has the smallest of the errors that are numbers. *)
Lemma select_smallest_number c0 cs best :
  (error c0 =? error c0) = true ->
  select (c0 :: cs) = Some best ->
  (error best =? error best) = true
  /\ forall c, In c (c0 :: cs) -> (error c =? error c) = true ->
       (error best <=? error c) = true.
Proof.
  intros H0 Hsel.
  assert (Hbest : (error best =? error best) = true).
  { destruct (keepBest_number cs c0 H0) as [b' [Hb' Hnum]].
    unfold select in Hsel. cbn [fold_left keepBest] in Hsel.
    rewrite Hb' in Hsel. now injection Hsel as <-. }
  split; [exact Hbest|]. intros c Hin Hc.
  destruct (select_some _ _ Hsel) as [k [_ [Hmin _]]].
  exact (FloatOrder.ltb_total _ _ (Hmin c Hin) Hc Hbest).
Qed.

(** ** Inverse kinematics *)

Section InverseFacts.

Variable M : MathLib.
Variable config : RobotConfig.
Variables j0 j1 j2 : DHParameters.
Hypothesis three : dhParameters config = [j0; j1; j2].

Lemma three_joints : numJoints config = 3%nat.
Proof. unfold numJoints. now rewrite three. Qed.

(** With three joints the verification call inside a sweep never throws. *)
Lemma verification_returns t1 t2 t3 :
  exists pose, calculateForwardKinematics M config [t1; t2; t3] = Ok pose.
Proof.
  destruct (forward_chain M config [t1; t2; t3] 2 three_joints eq_refl) as [H _].
  eexists. exact H.
Qed.

Lemma elbowDownStep_offers x y z a1 a2 a3 d1 d2 theta1 st :
  elbowDownStep M config x y z a1 a2 a3 d1 d2 theta1 st
  = Ok (match candidateOf (elbowDownStep M config x y z a1 a2 a3 d1 d2) theta1 with
        | Some c => keepBest st c
        | None => st
        end).
Proof.
  unfold candidateOf, elbowDownStep. cbv zeta.
  repeat (destruct (gtb _ _); [reflexivity|]).
  match goal with
  | |- context [calculateForwardKinematics M config [?t1; ?t2; ?t3]] =>
      destruct (verification_returns t1 t2 t3) as [pose ->]
  end.
  reflexivity.
Qed.

Lemma elbowUpStep_offers x y z a1 a2 a3 d1 d2 inverted theta1 st :
  elbowUpStep M config x y z a1 a2 a3 d1 d2 inverted theta1 st
  = Ok (match candidateOf (elbowUpStep M config x y z a1 a2 a3 d1 d2 inverted) theta1 with
        | Some c => keepBest st c
        | None => st
        end).
Proof.
  unfold candidateOf, elbowUpStep. cbv zeta.
  repeat (destruct (gtb _ _); [reflexivity|]).
  match goal with
  | |- context [calculateForwardKinematics M config [?t1; ?t2; ?t3]] =>
      destruct (verification_returns t1 t2 t3) as [pose ->]
  end.
  cbn [bind]. unfold keepBestWithin, keepBest. cbn [error].
  match goal with |- context [?e <? tolerance] => destruct (e <? tolerance) end;
    destruct st; reflexivity.
Qed.

(** A candidate of the second sweep passed the tolerance gate. *)
Lemma elbowUp_within x y z a1 a2 a3 d1 d2 inverted theta1 c :
  elbowUpStep M config x y z a1 a2 a3 d1 d2 inverted theta1 None = Ok (Some c) ->
  (error c <? tolerance) = true.
Proof.
  unfold elbowUpStep. cbv zeta.
  repeat (destruct (gtb _ _); [discriminate|]).
  match goal with
  | |- context [calculateForwardKinematics M config [?t1; ?t2; ?t3]] =>
      destruct (verification_returns t1 t2 t3) as [pose ->]
  end.
  cbn [bind]. unfold keepBestWithin. cbn [error].
  match goal with |- context [?e <? tolerance] => destruct (e <? tolerance) eqn:He end;
    cbn [andb]; [|discriminate].
  intros [= <-]. exact He.
Qed.

(** A candidate of the first sweep is a triple of angles starting with the
    base angle, filed with the position error of its forward kinematics. *)
Lemma elbowDown_candidate x y z a1 a2 a3 d1 d2 theta1 c :
  elbowDownStep M config x y z a1 a2 a3 d1 d2 theta1 None = Ok (Some c) ->
  nth_error (solution c) 0 = Some theta1
  /\ exists pose, calculateForwardKinematics M config (solution c) = Ok pose
       /\ error c = positionError M (position pose) x y z.
Proof.
  unfold elbowDownStep. cbv zeta.
  repeat (destruct (gtb _ _); [discriminate|]).
  match goal with
  | |- context [calculateForwardKinematics M config [?t1; ?t2; ?t3]] =>
      destruct (verification_returns t1 t2 t3) as [pose Hpose]; rewrite Hpose
  end.
  cbn [bind keepBest]. intros [= <-]. cbn [solution error].
  split; [reflexivity|]. exists pose. split; [exact Hpose | reflexivity].
Qed.

(** A candidate of the second sweep ends with the inverted elbow angle, is
    filed with its position error, and passed the tolerance gate. *)
Lemma elbowUp_candidate x y z a1 a2 a3 d1 d2 inverted theta1 c :
  elbowUpStep M config x y z a1 a2 a3 d1 d2 inverted theta1 None = Ok (Some c) ->
  nth_error (solution c) 2 = Some inverted
  /\ (exists pose, calculateForwardKinematics M config (solution c) = Ok pose
        /\ error c = positionError M (position pose) x y z)
  /\ (error c <? tolerance) = true.
Proof.
  intros Hc. pose proof (elbowUp_within _ _ _ _ _ _ _ _ _ _ _ Hc) as Hgate.
  revert Hc. unfold elbowUpStep. cbv zeta.
  repeat (destruct (gtb _ _); [discriminate|]).
  match goal with
  | |- context [calculateForwardKinematics M config [?t1; ?t2; ?t3]] =>
      destruct (verification_returns t1 t2 t3) as [pose Hpose]; rewrite Hpose
  end.
  cbn [bind]. unfold keepBestWithin. cbn [error].
  match goal with |- context [?e <? tolerance] => destruct (e <? tolerance) end;
    cbn [andb]; [|discriminate].
  intros [= <-]. cbn [solution error] in *.
  split; [reflexivity|]. split; [|exact Hgate].
  exists pose. split; [exact Hpose | reflexivity].
Qed.

Lemma inverse_solved x y z :
  calculateInverseKinematics M config (x, y, z) = Ok (solved M config j0 j1 j2 x y z).
Proof.
  unfold calculateInverseKinematics, inverseKinematicsWithin, solved.
  rewrite three_joints.
  cbn [Nat.eqb negb]. cbv iota. unfold dhParameter. rewrite three.
  cbn [nth_error bind]. cbv zeta.
  destruct (gtb _ _); [reflexivity|].
  rewrite (sweep_select _ (elbowDownStep_offers x y z _ _ _ _ _)). cbn [bind].
  destruct (select _) as [best|]; [|reflexivity].
  rewrite (sweep_select _ (elbowUpStep_offers x y z _ _ _ _ _ _)). cbn [bind].
  destruct (select _) as [up|]; reflexivity.
Qed.

(** As soon as the first angle of the sweep gives a candidate, the solver
    answers with a solution. *)
Lemma found_at_zero x y z c :
  gtb (sqrt (x * x + y * y)) (a j0 + a j1 + a j2) = false ->
  candidateOf (elbowDownStep M config x y z (a j0) (a j1) (a j2) (d j0) (d j1)) 0 = Some c ->
  exists result,
    calculateInverseKinematics M config (x, y, z) = Ok result
    /\ valid result = true /\ (1 <= length (solutions result))%nat.
Proof.
  intros Hreach Hc. rewrite inverse_solved. eexists. split; [reflexivity|].
  unfold solved. cbv zeta. rewrite Hreach.
  destruct (select _) as [best|] eqn:Hsel.
  - split; [reflexivity | cbn [solutions length]; apply le_n_S, Nat.le_0_l].
  - apply select_none in Hsel. destruct sweepThetas_head as [l Hl].
    rewrite Hl in Hsel. cbn [candidates] in Hsel. rewrite Hc in Hsel. discriminate.
Qed.

End InverseFacts.

Lemma three_links (config : RobotConfig) :
  numJoints config = 3%nat ->
  exists j0 j1 j2, dhParameters config = [j0; j1; j2].
Proof.
  unfold numJoints. destruct (dhParameters config) as [|j0 [|j1 [|j2 [|j3 l]]]];
    try discriminate.
  intros _. now exists j0, j1, j2.
Qed.

Lemma beyond_links_rejected
    (M : MathLib) (config : RobotConfig) (j0 j1 j2 : DHParameters) (x y z : float) :
  dhParameters config = [j0; j1; j2] ->
  gtb (sqrt (x * x + y * y)) (a j0 + a j1 + a j2) = true ->
  forall fuel, inverseKinematicsWithin M config fuel (x, y, z) = Ok noSolution.
Proof.
  intros Hdh Hfar fuel. unfold inverseKinematicsWithin, dhParameter, numJoints.
  rewrite Hdh. cbn [length Nat.eqb negb nth_error bind]. cbv zeta.
  rewrite Hfar. reflexivity.
Qed.

(** C8: on three joints, a target whose planar radius [sqrt(x*x + y*y)]
    exceeds [a1 + a2 + a3] is answered with no solution and [valid = false];
    the answer is there before any step of a sweep is taken, since it is
    returned whatever fuel, even none, the loops are given. *)
Theorem C8_planar_radius_beyond_links
    (M : MathLib) (config : RobotConfig) (j0 j1 j2 : DHParameters) (x y z : float) :
  dhParameters config = [j0; j1; j2] ->
  gtb (sqrt (x * x + y * y)) (a j0 + a j1 + a j2) = true ->
  calculateInverseKinematics M config (x, y, z)
  = Ok {| solutions := []; valid := false |}
  /\ forall fuel, inverseKinematicsWithin M config fuel (x, y, z)
                  = Ok {| solutions := []; valid := false |}.
Proof.
  intros Hdh Hfar.
  pose proof (beyond_links_rejected M config j0 j1 j2 x y z Hdh Hfar) as H.
  split; [apply H | exact H].
Qed.

Lemma C8_witness :
  dhParameters testRobot
  = [testLink (- Math_PI / 2); testLink (- Math_PI / 2); testLink 0]
  /\ gtb (sqrt (2 * 2 + 2 * 2))
         (a (testLink (- Math_PI / 2)) + a (testLink (- Math_PI / 2)) + a (testLink 0))
     = true
  /\ calculateInverseKinematics SeriesMath.lib testRobot (2, 2, 2)
     = Ok {| solutions := []; valid := false |}
  /\ forall fuel, inverseKinematicsWithin SeriesMath.lib testRobot fuel (2, 2, 2)
                  = Ok {| solutions := []; valid := false |}.
Proof.
  assert (H1 : dhParameters testRobot
               = [testLink (- Math_PI / 2); testLink (- Math_PI / 2); testLink 0])
    by reflexivity.
  assert (H2 : gtb (sqrt (2 * 2 + 2 * 2))
                 (a (testLink (- Math_PI / 2)) + a (testLink (- Math_PI / 2))
                  + a (testLink 0)) = true)
    by (vm_compute; reflexivity).
  exact (conj H1 (conj H2
           (C8_planar_radius_beyond_links SeriesMath.lib testRobot _ _ _ 2 2 2 H1 H2))).
Defined.

Lemma workspaceRadius_three (config : RobotConfig) (j0 j1 j2 : DHParameters) :
  dhParameters config = [j0; j1; j2] ->
  same (getWorkspaceRadius config) (a j0 + a j1 + a j2).
Proof.
  intros Hdh. unfold getWorkspaceRadius. rewrite Hdh. cbn [fold_left].
  apply FloatOrder.add_same, FloatOrder.add_same, FloatOrder.add_zero_l.
Qed.

(** C3, as the program has it: on three joints, a target whose distance
    from the base axis, [sqrt(x*x + y*y)], exceeds [getWorkspaceRadius()] is
    answered with no solution and [valid = false].  The height [z] of the
    target takes no part in the test. *)
Theorem C3_planar_radius_beyond_workspace
    (M : MathLib) (config : RobotConfig) (j0 j1 j2 : DHParameters) (x y z : float) :
  dhParameters config = [j0; j1; j2] ->
  gtb (sqrt (x * x + y * y)) (getWorkspaceRadius config) = true ->
  calculateInverseKinematics M config (x, y, z)
  = Ok {| solutions := []; valid := false |}.
Proof.
  intros Hdh Hfar.
  apply (beyond_links_rejected M config j0 j1 j2 x y z Hdh).
  unfold gtb in *. rewrite <- Hfar. symmetry.
  apply FloatOrder.ltb_same. now apply workspaceRadius_three.
Qed.

Lemma C3_witness :
  dhParameters testRobot
  = [testLink (- Math_PI / 2); testLink (- Math_PI / 2); testLink 0]
  /\ gtb (sqrt (2 * 2 + 2 * 2)) (getWorkspaceRadius testRobot) = true
  /\ calculateInverseKinematics SeriesMath.lib testRobot (2, 2, 2)
     = Ok {| solutions := []; valid := false |}.
Proof.
  assert (H1 : dhParameters testRobot
               = [testLink (- Math_PI / 2); testLink (- Math_PI / 2); testLink 0])
    by reflexivity.
  assert (H2 : gtb (sqrt (2 * 2 + 2 * 2)) (getWorkspaceRadius testRobot) = true)
    by (vm_compute; reflexivity).
  exact (conj H1 (conj H2
           (C3_planar_radius_beyond_workspace SeriesMath.lib testRobot _ _ _ 2 2 2 H1 H2))).
Defined.

Lemma SeriesMath_conforming : conforming SeriesMath.lib.
Proof. split; vm_compute; reflexivity. Qed.

(** Runs the body of the first loop at the angle zero for a concrete target:
    the engine's cosine and sine of zero are known, the three tests of the
    body are evaluated, and the verification call returns. *)
Ltac first_angle_candidate HM Hdh :=
  let Hc := fresh "Hc" in
  let Hs := fresh "Hs" in
  destruct HM as [Hc Hs];
  unfold candidateOf, elbowDownStep; rewrite Hc, Hs; cbv zeta;
  repeat match goal with
  | |- context [gtb ?u ?v] =>
      let b := eval vm_compute in (gtb u v) in
      change (gtb u v) with b; cbv iota
  end;
  match goal with
  | |- context [calculateForwardKinematics ?M ?config [?t1; ?t2; ?t3]] =>
      let pose := fresh "pose" in
      let Hp := fresh "Hp" in
      destruct (verification_returns M config _ _ _ Hdh t1 t2 t3) as [pose Hp];
      rewrite Hp
  end;
  cbn [bind keepBest]; eexists; reflexivity.

(** C3, as stated, fails: the example robot with links 0.225, 0.735 and
    0.175 and base offset 0.325 has workspace radius 1.135; the target
    (0.25, 0, 1.125) lies farther than that from the base origin, yet on
    every engine the solver answers [valid = true] with a solution. *)
Lemma C3_counterexample_high_target :
  dhParameters threeDOFRobot = [baseLink; shoulderLink; elbowLink]
  /\ gtb (sqrt (0.25 * 0.25 + 0 * 0 + 1.125 * 1.125)) (getWorkspaceRadius threeDOFRobot)
     = true
  /\ forall M : MathLib, conforming M ->
       exists result,
         calculateInverseKinematics M threeDOFRobot (0.25, 0, 1.125) = Ok result
         /\ valid result = true /\ (1 <= length (solutions result))%nat.
Proof.
  assert (Hdh : dhParameters threeDOFRobot = [baseLink; shoulderLink; elbowLink])
    by reflexivity.
  split; [exact Hdh|]. split; [vm_compute; reflexivity|].
  intros M HM.
  assert (Hcand : exists c,
            candidateOf (elbowDownStep M threeDOFRobot 0.25 0 1.125
                           (a baseLink) (a shoulderLink) (a elbowLink)
                           (d baseLink) (d shoulderLink)) 0 = Some c)
    by first_angle_candidate HM Hdh.
  destruct Hcand as [c Hcand].
  apply (found_at_zero M threeDOFRobot _ _ _ Hdh 0.25 0 1.125 c); [|exact Hcand].
  vm_compute. reflexivity.
Qed.

(** C4: for every configuration and every target the solver returns a
    result (it neither throws nor runs out of the model's fuel) whose
    [valid] flag says whether there is a solution, and which holds at most
    two solutions. *)
Theorem C4_result_shape (M : MathLib) (config : RobotConfig)
    (targetPosition : float * float * float) :
  exists result,
    calculateInverseKinematics M config targetPosition = Ok result
    /\ valid result = (0 <? length (solutions result))%nat
    /\ (length (solutions result) <=? 2)%nat = true.
Proof.
  destruct targetPosition as [[x y] z].
  destruct (Nat.eq_dec (numJoints config) 3) as [H3|H3].
  - destruct (three_links config H3) as [j0 [j1 [j2 Hdh]]].
    exists (solved M config j0 j1 j2 x y z).
    split; [now apply inverse_solved|].
    unfold solved. cbv zeta.
    destruct (gtb _ _); [split; reflexivity|].
    destruct (select _) as [best|]; [|split; reflexivity].
    destruct (select _) as [up|]; split; reflexivity.
  - exists noSolution. split; [|split; reflexivity].
    unfold calculateInverseKinematics, inverseKinematicsWithin.
    apply Nat.eqb_neq in H3. now rewrite H3.
Qed.

(** X2: What the two sweeps select.  On three joints and a target that passes
    the reach test, let the candidates of the first sweep be listed in the
    order of the sweep.  Without candidates there is no solution.  Otherwise
    the first solution returned is the candidate [best] such that no
    candidate has a strictly smaller forward-kinematics position error and
    no earlier candidate has a smaller or equal one (the first found wins
    ties); it is returned whatever its error is.  A second solution, when
    there is one, is the candidate selected the same way in the second
    sweep, run with the elbow angle of [best] negated, and its error is
    strictly below 0.1.  "Smaller" is the comparison of the program: an
    error that is NaN is smaller than none and none is smaller than it. *)
Lemma sweeps_select_first_strictly_best
    (M : MathLib) (config : RobotConfig) (j0 j1 j2 : DHParameters) (x y z : float) :
  dhParameters config = [j0; j1; j2] ->
  gtb (sqrt (x * x + y * y)) (a j0 + a j1 + a j2) = false ->
  let down :=
    candidates (elbowDownStep M config x y z (a j0) (a j1) (a j2) (d j0) (d j1))
               sweepThetas in
  (down = [] /\ calculateInverseKinematics M config (x, y, z) = Ok noSolution)
  \/ exists (k : nat) (best : Candidate) (result : IKResult),
       firstStrictlyBest down k best
       /\ (exists pose, calculateForwardKinematics M config (solution best) = Ok pose
                        /\ error best = positionError M (position pose) x y z)
       /\ calculateInverseKinematics M config (x, y, z) = Ok result
       /\ valid result = true
       /\ nth_error (solutions result) 0 = Some (solution best)
       /\ forall s, nth_error (solutions result) 1 = Some s ->
            exists (k' : nat) (up : Candidate),
              firstStrictlyBest
                (candidates (elbowUpStep M config x y z (a j0) (a j1) (a j2) (d j0) (d j1)
                               (- index_or_nan (solution best) 2))
                            sweepThetas) k' up
              /\ solution up = s
              /\ (exists pose, calculateForwardKinematics M config (solution up) = Ok pose
                               /\ error up = positionError M (position pose) x y z)
              /\ (error up <? tolerance) = true.
Proof.
  intros Hdh Hreach down.
  rewrite (inverse_solved M config j0 j1 j2 Hdh). unfold solved. cbv zeta.
  rewrite Hreach. fold down.
  destruct (select down) as [best|] eqn:Hsel.
  - right. destruct (select_some _ _ Hsel) as [k Hbest].
    exists k, best. eexists. split; [exact Hbest|].
    split.
    { destruct Hbest as [Hk _]. apply nth_error_In in Hk.
      apply candidates_In in Hk. destruct Hk as [t [_ Ht]].
      exact (proj2 (elbowDown_candidate M config j0 j1 j2 Hdh _ _ _ _ _ _ _ _ _ _ Ht)). }
    split; [reflexivity|]. split; [reflexivity|]. split; [reflexivity|].
    intros s. cbn [solutions nth_error].
    destruct (select (candidates (elbowUpStep _ _ _ _ _ _ _ _ _ _ _) _)) as [up|] eqn:Hup;
      cbn [nth_error]; [|discriminate].
    intros [= <-]. destruct (select_some _ _ Hup) as [k' Hbest'].
    exists k', up. split; [exact Hbest'|]. split; [reflexivity|].
    destruct Hbest' as [Hk' _]. apply nth_error_In in Hk'.
    apply candidates_In in Hk'. destruct Hk' as [t [_ Ht]].
    exact (proj2 (elbowUp_candidate M config j0 j1 j2 Hdh _ _ _ _ _ _ _ _ _ _ _ Ht)).
  - left. split; [now apply select_none | reflexivity].
Qed.

(** Runs the body of the first loop at the angle zero for a target that
    coincides with the shoulder: the quotient under the second arccosine is
    0/0, and the NaN goes through the verification call into the error. *)
Ltac nan_candidate M HM HN :=
  let Hc := fresh "Hc" in
  let Hs := fresh "Hs" in
  let Hacos := fresh "Hacos" in
  let Hcos := fresh "Hcos" in
  let Hsin := fresh "Hsin" in
  let Hpow := fresh "Hpow" in
  let Hfk := fresh "Hfk" in
  let Hp0 := fresh "Hp0" in
  destruct HM as [Hc Hs]; destruct HN as [Hacos [Hcos [Hsin Hpow]]];
  unfold candidateOf, elbowDownStep; rewrite Hc, Hs; cbv zeta;
  repeat match goal with
  | |- context [gtb ?u ?v] =>
      let b := eval vm_compute in (gtb u v) in
      change (gtb u v) with b; cbv iota
  end;
  repeat match goal with
  | |- context [Math_acos M ?u] =>
      let v := eval vm_compute in u in
      tryif unify v nan then (progress change u with nan) else (progress change u with v)
  end;
  rewrite Hacos, FloatOrder.sub_nan_r;
  destruct (forward_chain M testRobot [0; nan; Math_acos M 1] 2 eq_refl eq_refl)
    as [Hfk _];
  rewrite Hfk; cbn [bind keepBest]; exists (Math_acos M 1); f_equal; f_equal;
  unfold positionError, poseOf; cbn [position];
  match goal with
  | |- sqrt (Math_pow M (?p0 - _) _ + _ + _) = _ => assert (Hp0 : p0 = nan)
  end;
  [ cbv -[PrimFloat.add PrimFloat.mul PrimFloat.sub PrimFloat.div PrimFloat.opp
          Math_cos Math_sin];
    rewrite !FloatOrder.add_nan_r, Hcos, Hsin;
    repeat rewrite ?FloatOrder.mul_nan_l, ?FloatOrder.mul_nan_r,
                   ?FloatOrder.add_nan_l, ?FloatOrder.add_nan_r;
    reflexivity
  | rewrite Hp0, FloatOrder.sub_nan_l, Hpow, !FloatOrder.add_nan_l; reflexivity ].

Lemma SeriesMath_propagatesNaN : propagatesNaN SeriesMath.lib.
Proof. repeat split; vm_compute; reflexivity. Qed.

(** C5 fails on the test robot for the target (0.3, 0, 0), the place of the
    shoulder at the base angle zero.  There the first candidate of the
    first sweep has the shoulder angle NaN and the error NaN, on every
    engine that follows ECMAScript on zero and on NaN; no later candidate
    replaces it, and the solver returns it as its first solution with
    [valid = true].  Yet the sweep has a candidate whose error is a number
    below one (shown, as the whole run is, with the series standing in for
    the engine): the candidate kept is not the one with the smallest
    error. *)
Theorem C5_nan_first_candidate_is_kept :
  (forall M : MathLib, conforming M -> propagatesNaN M ->
     exists (theta3 : float) (result : IKResult),
       candidateOf (elbowDownStep M testRobot threeTenths 0 0
                      threeTenths threeTenths threeTenths 0 0) 0
       = Some {| solution := [0; nan; theta3]; error := nan |}
       /\ calculateInverseKinematics M testRobot (threeTenths, 0, 0) = Ok result
       /\ valid result = true
       /\ nth_error (solutions result) 0 = Some [0; nan; theta3])
  /\ conforming SeriesMath.lib
  /\ propagatesNaN SeriesMath.lib
  /\ calculateInverseKinematics SeriesMath.lib testRobot (threeTenths, 0, 0)
     = Ok {| solutions := [[0; nan; 0]]; valid := true |}
  /\ exists c,
       In c (candidates (elbowDownStep SeriesMath.lib testRobot threeTenths 0 0
                           threeTenths threeTenths threeTenths 0 0) sweepThetas)
       /\ (error c <? 1) = true.
Proof.
  split; [|split; [exact SeriesMath_conforming|split; [exact SeriesMath_propagatesNaN|]]];
    [|split; [vm_compute; reflexivity|]].
  - intros M HM HN.
    assert (Hdh : dhParameters testRobot
                  = [testLink (- Math_PI / 2); testLink (- Math_PI / 2); testLink 0])
      by reflexivity.
    assert (Hcand : exists theta3,
              candidateOf (elbowDownStep M testRobot threeTenths 0 0
                             threeTenths threeTenths threeTenths 0 0) 0
              = Some {| solution := [0; nan; theta3]; error := nan |})
      by nan_candidate M HM HN.
    destruct Hcand as [theta3 Hcand]. exists theta3. eexists.
    split; [exact Hcand|].
    rewrite (inverse_solved M testRobot _ _ _ Hdh). split; [reflexivity|].
    unfold solved. cbv zeta.
    match goal with
    | |- context [gtb ?u ?v] =>
        let b := eval vm_compute in (gtb u v) in change (gtb u v) with b; cbv iota
    end.
    destruct sweepThetas_head as [l Hl]. rewrite Hl.
    cbn [candidates a d testLink]. rewrite Hcand.
    unfold select. cbn [fold_left keepBest].
    rewrite !keepBest_nan_stays by reflexivity.
    split; reflexivity.
  - destruct sweepThetas_second as [l Hl]. eexists. split.
    + apply candidates_In. exists (0 + stepSize). split.
      * rewrite Hl. right. left. reflexivity.
      * vm_compute. reflexivity.
    + vm_compute. reflexivity.
Qed.

(** ** Joint types *)

Lemma joint_types_unread (M : MathLib) (config : RobotConfig) (types : list JointType)
    (fuel : nat) (targetPosition : float * float * float) :
  inverseKinematicsWithin M (withJointTypes config types) fuel targetPosition
  = inverseKinematicsWithin M config fuel targetPosition.
Proof. reflexivity. Qed.

(** C6, as the program has it: the solver looks at the number of joints and
    at nothing else of their kind.  When the count is not three it returns
    the empty, invalid result as a value, before either loop takes a step
    (whatever fuel, even none, they are given); and the declared joint types
    are never read: changing them changes no answer. *)
Theorem C6_joint_count_is_the_gate (M : MathLib) (config : RobotConfig)
    (targetPosition : float * float * float) :
  (numJoints config <> 3%nat ->
     calculateInverseKinematics M config targetPosition
     = Ok {| solutions := []; valid := false |}
     /\ forall fuel, inverseKinematicsWithin M config fuel targetPosition
                     = Ok {| solutions := []; valid := false |})
  /\ (forall types,
        calculateInverseKinematics M (withJointTypes config types) targetPosition
        = calculateInverseKinematics M config targetPosition).
Proof.
  split.
  - intros H3.
    assert (H : forall fuel,
               inverseKinematicsWithin M config fuel targetPosition = Ok noSolution).
    { intros fuel. unfold inverseKinematicsWithin.
      apply Nat.eqb_neq in H3. now rewrite H3. }
    split; [apply H | exact H].
  - intros types. apply joint_types_unread.
Qed.

Lemma C6_witness :
  numJoints sixDOFRobot <> 3%nat
  /\ calculateInverseKinematics SeriesMath.lib sixDOFRobot (0.5, 0.25, 0.25)
     = Ok {| solutions := []; valid := false |}
  /\ forall fuel, inverseKinematicsWithin SeriesMath.lib sixDOFRobot fuel (0.5, 0.25, 0.25)
                  = Ok {| solutions := []; valid := false |}.
Proof.
  assert (H : numJoints sixDOFRobot <> 3%nat) by (vm_compute; lia).
  exact (conj H
           (proj1 (C6_joint_count_is_the_gate SeriesMath.lib sixDOFRobot (0.5, 0.25, 0.25))
                  H)).
Defined.

(** C6, as stated, fails on "revolute": with the three joints of the example
    robot declared prismatic, the solver still runs its search and, on every
    engine, answers the target (1, 0, 0.25) with [valid = true] and a
    solution. *)
Lemma C6_counterexample_prismatic_joints :
  jointTypes prismaticRobot = [prismatic; prismatic; prismatic]
  /\ forall M : MathLib, conforming M ->
       exists result,
         calculateInverseKinematics M prismaticRobot (1, 0, 0.25) = Ok result
         /\ valid result = true /\ (1 <= length (solutions result))%nat.
Proof.
  split; [reflexivity|]. intros M HM.
  assert (Hdh : dhParameters prismaticRobot = [baseLink; shoulderLink; elbowLink])
    by reflexivity.
  assert (Hcand : exists c,
            candidateOf (elbowDownStep M prismaticRobot 1 0 0.25
                           (a baseLink) (a shoulderLink) (a elbowLink)
                           (d baseLink) (d shoulderLink)) 0 = Some c)
    by first_angle_candidate HM Hdh.
  destruct Hcand as [c Hcand].
  apply (found_at_zero M prismaticRobot _ _ _ Hdh 1 0 0.25 c); [|exact Hcand].
  vm_compute. reflexivity.
Qed.

(** ** The workspace radius *)

Lemma sum_of_lengths (l : list DHParameters) :
  forall acc, fold_left (fun sum params => sum + a params) l acc
              = fold_left PrimFloat.add (map a l) acc.
Proof. induction l as [|p l IH]; intros acc; simpl; [reflexivity | apply IH]. Qed.

(** C9, as stated, fails on the error bound: for links of 2^22 and 2^-31
    the method returns 2^22, the second link being lost to rounding, and
    is off the exact sum by 2^-31, which is more than 1e-10. *)
Lemma C9_counterexample_rounding :
  getWorkspaceRadius unevenRobot = 4194304
  /\ Qeq_bool (exactLinkSum unevenRobot) (4194304 + (1 # 2147483648))%Q = true
  /\ Qle_bool (1 # 10000000000)
              (Qabs (exactValue (getWorkspaceRadius unevenRobot)
                     - exactLinkSum unevenRobot)%Q) = true.
Proof. repeat split; vm_compute; reflexivity. Qed.

(** C9, as the program has it: [getWorkspaceRadius] returns the binary64
    sum of the [a] fields, added one after the other to zero in the order
    of the joints; the result depends on nothing else of the configuration;
    and for three links of 0.3 it is within 1e-10 of 0.9. *)
Theorem C9_workspace_radius_is_the_float_sum (config : RobotConfig) :
  getWorkspaceRadius config = fold_left PrimFloat.add (map a (dhParameters config)) 0
  /\ (forall config',
        map a (dhParameters config') = map a (dhParameters config) ->
        getWorkspaceRadius config' = getWorkspaceRadius config)
  /\ (map a (dhParameters config)
      = [threeTenths; threeTenths; threeTenths] ->
      (abs (getWorkspaceRadius config - nineTenths) <? tenthOfNano) = true).
Proof.
  assert (H : forall c, getWorkspaceRadius c
                        = fold_left PrimFloat.add (map a (dhParameters c)) 0)
    by (intros c; apply sum_of_lengths).
  split; [apply H|]. split.
  - intros config' Heq. now rewrite !H, Heq.
  - intros Heq. rewrite H, Heq. vm_compute. reflexivity.
Qed.

Lemma C9_witness :
  map a (dhParameters testRobot)
  = [threeTenths; threeTenths; threeTenths]
  /\ (abs (getWorkspaceRadius testRobot - nineTenths) <? tenthOfNano) = true.
Proof.
  assert (H : map a (dhParameters testRobot)
              = [threeTenths; threeTenths; threeTenths])
    by reflexivity.
  exact (conj H (proj2 (proj2 (C9_workspace_radius_is_the_float_sum testRobot)) H)).
Defined.

(** ** Runs of the scenarios of the test suite

    With the series of [SeriesMath] standing in for the engine. *)

(** At the zero angles the README robot reaches about (0.7, 0, 0.1). *)
Example readme_zero_angles :
  exists pose,
    calculateForwardKinematics SeriesMath.lib readmeRobot [0; 0; 0] = Ok pose
    /\ (let '(p0, p1, p2) := position pose in
        (abs (p0 - 0x1.6666666666666p-1) <? 0x1p-20)
        && (abs p1 <? 0x1p-20)
        && (abs (p2 - 0x1.999999999999ap-4) <? 0x1p-20)) = true
    /\ Matrix.shaped 3 3 (orientation pose).
Proof.
  eexists. split; [vm_compute; reflexivity|].
  split; [vm_compute; reflexivity | split; [reflexivity | repeat constructor]].
Qed.

(** The test robot reaches (0.5, 0.2, 0.3) and does not reach (2, 2, 2). *)
Example test_reachable_positions :
  isReachable SeriesMath.lib testRobot
    (0.5, 0x1.999999999999ap-3, 0x1.3333333333333p-2) = Ok true
  /\ isReachable SeriesMath.lib testRobot (2, 2, 2) = Ok false
  /\ calculateInverseKinematics SeriesMath.lib testRobot (2, 2, 2) = Ok noSolution.
Proof. repeat split; vm_compute; reflexivity. Qed.

(** The example program's target (0.5, 0.2, 0.3) gets one solution, which is
    returned although its forward kinematics misses the target by more than
    one unit of length: the first sweep has no tolerance. *)
Example example_target_solved :
  exists s pose,
    calculateInverseKinematics SeriesMath.lib threeDOFRobot
      (0.5, 0x1.999999999999ap-3, 0x1.3333333333333p-2)
    = Ok {| solutions := [s]; valid := true |}
    /\ calculateForwardKinematics SeriesMath.lib threeDOFRobot s = Ok pose
    /\ (1 <? positionError SeriesMath.lib (position pose)
               0.5 0x1.999999999999ap-3 0x1.3333333333333p-2) = true.
Proof.
  eexists. eexists. split; [vm_compute; reflexivity|].
  split; vm_compute; reflexivity.
Qed.

(** * Further properties *)

(** ** When the forward kinematics returns *)

Lemma orientation_shaped T : Matrix.shaped 3 3 (orientation (poseOf T)).
Proof. split; [reflexivity | repeat constructor]. Qed.

(** X1: The call returns a pose exactly when the number of angles is the number
    of joints and there is at least one joint; the orientation it returns
    is then a 3 by 3 matrix. *)
Theorem forward_returns_exactly_when
    (M : MathLib) (config : RobotConfig) (jointAngles : list float) :
  ((exists pose, calculateForwardKinematics M config jointAngles = Ok pose)
   <-> length jointAngles = numJoints config /\ (1 <= numJoints config)%nat)
  /\ (forall pose, calculateForwardKinematics M config jointAngles = Ok pose ->
        Matrix.shaped 3 3 (orientation pose)).
Proof.
  assert (Hok : length jointAngles = numJoints config -> (1 <= numJoints config)%nat ->
                calculateForwardKinematics M config jointAngles
                = Ok (poseOf (chain (jointTransform M config jointAngles)
                                    (numJoints config - 1)))).
  { intros Hlen Hpos. destruct (numJoints config) as [|n] eqn:Hn; [lia|].
    replace (S n - 1)%nat with n by lia.
    exact (proj1 (forward_chain M config jointAngles n Hn Hlen)). }
  assert (Hnot : forall pose, calculateForwardKinematics M config jointAngles = Ok pose ->
                 length jointAngles = numJoints config /\ (1 <= numJoints config)%nat).
  { intros pose. unfold calculateForwardKinematics.
    destruct (length jointAngles =? numJoints config)%nat eqn:Hlen;
      cbn [negb]; [|discriminate].
    apply Nat.eqb_eq in Hlen. unfold numJoints in *.
    destruct (dhParameters config) as [|p l]; [discriminate|].
    intros _. split; [exact Hlen | cbn [length]; lia]. }
  split; [split|].
  - intros [pose Hpose]. exact (Hnot pose Hpose).
  - intros [Hlen Hpos]. eexists. exact (Hok Hlen Hpos).
  - intros pose Hpose. destruct (Hnot pose Hpose) as [Hlen Hpos].
    rewrite (Hok Hlen Hpos) in Hpose. injection Hpose as <-.
    apply orientation_shaped.
Qed.

(** ** What the inverse solver returns *)

Lemma sweepThetas_range :
  forall t, In t sweepThetas -> (0 <=? t) = true /\ (t <? 2 * Math_PI) = true.
Proof.
  assert (H : forallb (fun t => (0 <=? t) && (t <? 2 * Math_PI)) sweepThetas = true).
  { generalize sweep_finishes. generalize sweepThetas. intros l H.
    vm_compute in H. injection H as <-. vm_compute. reflexivity. }
  intros t Hin. rewrite forallb_forall in H. specialize (H t Hin).
  now apply andb_true_iff in H.
Qed.

Section SolutionShapes.

Variable M : MathLib.
Variable config : RobotConfig.
Variables j0 j1 j2 : DHParameters.
Hypothesis three : dhParameters config = [j0; j1; j2].

Lemma elbowDown_triple x y z a1 a2 a3 d1 d2 theta1 c :
  elbowDownStep M config x y z a1 a2 a3 d1 d2 theta1 None = Ok (Some c) ->
  exists theta2 theta3, solution c = [theta1; theta2; theta3].
Proof.
  unfold elbowDownStep. cbv zeta.
  repeat (destruct (gtb _ _); [discriminate|]).
  match goal with
  | |- context [calculateForwardKinematics M config [?t1; ?t2; ?t3]] =>
      destruct (verification_returns M config j0 j1 j2 three t1 t2 t3) as [pose ->]
  end.
  cbn [bind keepBest]. intros [= <-]. cbn [solution]. eexists. eexists. reflexivity.
Qed.

Lemma elbowUp_triple x y z a1 a2 a3 d1 d2 inverted theta1 c :
  elbowUpStep M config x y z a1 a2 a3 d1 d2 inverted theta1 None = Ok (Some c) ->
  exists theta2, solution c = [theta1; theta2; inverted].
Proof.
  unfold elbowUpStep. cbv zeta.
  repeat (destruct (gtb _ _); [discriminate|]).
  match goal with
  | |- context [calculateForwardKinematics M config [?t1; ?t2; ?t3]] =>
      destruct (verification_returns M config j0 j1 j2 three t1 t2 t3) as [pose ->]
  end.
  cbn [bind]. unfold keepBestWithin.
  match goal with |- context [?e <? tolerance] => destruct (e <? tolerance) end;
    cbn [andb]; [|discriminate].
  intros [= <-]. cbn [solution]. eexists. reflexivity.
Qed.

Lemma select_In cs best : select cs = Some best -> In best cs.
Proof.
  intros Hsel. destruct (select_some _ _ Hsel) as [k [Hk _]].
  exact (nth_error_In _ _ Hk).
Qed.

(** On three joints the solutions are none, or one triple whose base angle
    is an angle of the sweep, or two such triples the second of which ends
    with the negated elbow angle of the first. *)
Lemma solved_shape x y z :
  let result := solved M config j0 j1 j2 x y z in
  (solutions result = [] /\ valid result = false)
  \/ exists t1 t2 t3,
       In t1 sweepThetas /\ valid result = true
       /\ (solutions result = [[t1; t2; t3]]
           \/ exists u1 u2, In u1 sweepThetas
                /\ solutions result = [[t1; t2; t3]; [u1; u2; - t3]]).
Proof.
  unfold solved. cbv zeta.
  destruct (gtb _ _); [left; split; reflexivity|].
  destruct (select _) as [best|] eqn:Hbest; [|left; split; reflexivity].
  right. apply select_In, candidates_In in Hbest.
  destruct Hbest as [t1 [Ht1 Hstep]].
  destruct (elbowDown_triple _ _ _ _ _ _ _ _ _ _ Hstep) as [t2 [t3 Hsol]].
  exists t1, t2, t3. split; [exact Ht1|]. split; [reflexivity|].
  rewrite Hsol. cbn [solutions index_or_nan nth].
  destruct (select _) as [up|] eqn:Hup; [|left; reflexivity].
  right. apply select_In, candidates_In in Hup.
  destruct Hup as [u1 [Hu1 Hstep']].
  destruct (elbowUp_triple _ _ _ _ _ _ _ _ _ _ _ Hstep') as [u2 Hsol'].
  exists u1, u2. split; [exact Hu1|]. now rewrite Hsol'.
Qed.

End SolutionShapes.

(** Whatever the configuration, the solver returns one of these. *)
Lemma inverse_shape (M : MathLib) (config : RobotConfig)
    (targetPosition : float * float * float) :
  exists result,
    calculateInverseKinematics M config targetPosition = Ok result
    /\ ((solutions result = [] /\ valid result = false)
        \/ (numJoints config = 3%nat
            /\ exists t1 t2 t3,
                 In t1 sweepThetas /\ valid result = true
                 /\ (solutions result = [[t1; t2; t3]]
                     \/ exists u1 u2, In u1 sweepThetas
                          /\ solutions result = [[t1; t2; t3]; [u1; u2; - t3]]))).
Proof.
  destruct targetPosition as [[x y] z].
  destruct (Nat.eq_dec (numJoints config) 3) as [H3|H3].
  - destruct (three_links config H3) as [j0 [j1 [j2 Hdh]]].
    exists (solved M config j0 j1 j2 x y z).
    split; [now apply inverse_solved|].
    destruct (solved_shape M config j0 j1 j2 Hdh x y z) as [Hnone|Hsome];
      [left; exact Hnone | right; split; [exact H3 | exact Hsome]].
  - exists noSolution. split; [|left; split; reflexivity].
    unfold calculateInverseKinematics, inverseKinematicsWithin.
    apply Nat.eqb_neq in H3. now rewrite H3.
Qed.

Lemma sweeps_select_witness :
  dhParameters threeDOFRobot = [baseLink; shoulderLink; elbowLink]
  /\ gtb (sqrt (1 * 1 + 0 * 0)) (a baseLink + a shoulderLink + a elbowLink) = false
  /\ let down :=
       candidates (elbowDownStep SeriesMath.lib threeDOFRobot 1 0 0.5
                     (a baseLink) (a shoulderLink) (a elbowLink) (d baseLink)
                     (d shoulderLink))
                  sweepThetas in
     (down = []
      /\ calculateInverseKinematics SeriesMath.lib threeDOFRobot (1, 0, 0.5) = Ok noSolution)
     \/ exists (k : nat) (best : Candidate) (result : IKResult),
          firstStrictlyBest down k best
          /\ (exists pose,
                 calculateForwardKinematics SeriesMath.lib threeDOFRobot (solution best)
                 = Ok pose
                 /\ error best = positionError SeriesMath.lib (position pose) 1 0 0.5)
          /\ calculateInverseKinematics SeriesMath.lib threeDOFRobot (1, 0, 0.5) = Ok result
          /\ valid result = true
          /\ nth_error (solutions result) 0 = Some (solution best)
          /\ forall s, nth_error (solutions result) 1 = Some s ->
               exists (k' : nat) (up : Candidate),
                 firstStrictlyBest
                   (candidates (elbowUpStep SeriesMath.lib threeDOFRobot 1 0 0.5
                                  (a baseLink) (a shoulderLink) (a elbowLink)
                                  (d baseLink) (d shoulderLink)
                                  (- index_or_nan (solution best) 2))
                               sweepThetas) k' up
                 /\ solution up = s
                 /\ (exists pose,
                        calculateForwardKinematics SeriesMath.lib threeDOFRobot (solution up)
                        = Ok pose
                        /\ error up = positionError SeriesMath.lib (position pose) 1 0 0.5)
                 /\ (error up <? tolerance) = true.
Proof.
  assert (H1 : dhParameters threeDOFRobot = [baseLink; shoulderLink; elbowLink])
    by reflexivity.
  assert (H2 : gtb (sqrt (1 * 1 + 0 * 0)) (a baseLink + a shoulderLink + a elbowLink)
               = false)
    by (vm_compute; reflexivity).
  exact (conj H1 (conj H2
           (sweeps_select_first_strictly_best SeriesMath.lib threeDOFRobot
              baseLink shoulderLink elbowLink 1 0 0.5 H1 H2))).
Defined.

(** X3: Every solution the solver returns can be handed back to the forward
    kinematics: a solution is only ever returned for a robot of three
    joints, it holds three angles, its base angle is an angle of the sweep
    and so lies in [0, 2 pi), and the forward kinematics returns a pose for
    it. *)
Theorem solutions_are_joint_vectors
    (M : MathLib) (config : RobotConfig) (targetPosition : float * float * float)
    (result : IKResult) (s : list float) :
  calculateInverseKinematics M config targetPosition = Ok result ->
  In s (solutions result) ->
  numJoints config = 3%nat
  /\ length s = 3%nat
  /\ (0 <=? index_or_nan s 0) = true
  /\ (index_or_nan s 0 <? 2 * Math_PI) = true
  /\ exists pose, calculateForwardKinematics M config s = Ok pose.
Proof.
  intros Hik Hs.
  destruct (inverse_shape M config targetPosition) as [r [Hr Hshape]].
  rewrite Hik in Hr. injection Hr as <-.
  destruct Hshape as [[Hnone _] | [H3 [t1 [t2 [t3 [Ht1 [_ Hsol]]]]]]].
  - rewrite Hnone in Hs. destruct Hs.
  - destruct (three_links config H3) as [j0 [j1 [j2 Hdh]]].
    assert (Hone : forall v1 v2 v3, In v1 sweepThetas ->
              numJoints config = 3%nat
              /\ length [v1; v2; v3] = 3%nat
              /\ (0 <=? index_or_nan [v1; v2; v3] 0) = true
              /\ (index_or_nan [v1; v2; v3] 0 <? 2 * Math_PI) = true
              /\ exists pose, calculateForwardKinematics M config [v1; v2; v3] = Ok pose).
    { intros v1 v2 v3 Hv. destruct (sweepThetas_range v1 Hv) as [Hlo Hhi].
      repeat split; try assumption.
      exact (verification_returns M config j0 j1 j2 Hdh v1 v2 v3). }
    destruct Hsol as [Hsol | [u1 [u2 [Hu1 Hsol]]]]; rewrite Hsol in Hs.
    + destruct Hs as [<- | []]. now apply Hone.
    + destruct Hs as [<- | [<- | []]]; now apply Hone.
Qed.

Lemma solutions_are_joint_vectors_witness :
  exists result s,
    calculateInverseKinematics SeriesMath.lib threeDOFRobot (1, 0, 0.5) = Ok result
    /\ In s (solutions result)
    /\ numJoints threeDOFRobot = 3%nat
    /\ length s = 3%nat
    /\ (0 <=? index_or_nan s 0) = true
    /\ (index_or_nan s 0 <? 2 * Math_PI) = true
    /\ exists pose, calculateForwardKinematics SeriesMath.lib threeDOFRobot s = Ok pose.
Proof.
  eexists. eexists.
  split; [vm_compute; reflexivity|].
  split; [right; left; reflexivity|].
  eapply (solutions_are_joint_vectors SeriesMath.lib threeDOFRobot (1, 0, 0.5)).
  - vm_compute. reflexivity.
  - right. left. reflexivity.
Defined.

(** X4: When the solver returns two solutions, both are triples and the second
    one, the elbow-up solution, ends with the negated elbow angle of the
    first. *)
Theorem second_solution_negates_elbow
    (M : MathLib) (config : RobotConfig) (targetPosition : float * float * float)
    (result : IKResult) (s1 s2 : list float) :
  calculateInverseKinematics M config targetPosition = Ok result ->
  solutions result = [s1; s2] ->
  exists t1 t2 t3 u1 u2, s1 = [t1; t2; t3] /\ s2 = [u1; u2; - t3].
Proof.
  intros Hik Hs.
  destruct (inverse_shape M config targetPosition) as [r [Hr Hshape]].
  rewrite Hik in Hr. injection Hr as <-.
  destruct Hshape as [[Hnone _] | [_ [t1 [t2 [t3 [_ [_ Hsol]]]]]]].
  - rewrite Hnone in Hs. discriminate.
  - destruct Hsol as [Hsol | [u1 [u2 [_ Hsol]]]]; rewrite Hsol in Hs.
    + discriminate.
    + injection Hs as <- <-. exists t1, t2, t3, u1, u2. split; reflexivity.
Qed.

Lemma second_solution_negates_elbow_witness :
  exists result s1 s2,
    calculateInverseKinematics SeriesMath.lib threeDOFRobot (1, 0, 0.5) = Ok result
    /\ solutions result = [s1; s2]
    /\ exists t1 t2 t3 u1 u2, s1 = [t1; t2; t3] /\ s2 = [u1; u2; - t3].
Proof.
  eexists. eexists. eexists.
  split; [vm_compute; reflexivity|].
  split; [reflexivity|].
  apply (second_solution_negates_elbow SeriesMath.lib threeDOFRobot (1, 0, 0.5)
           _ _ _ ltac:(vm_compute; reflexivity) eq_refl).
Defined.

(** X5: [isReachable] never throws; it answers [true] exactly when the solver
    returns at least one solution, and [false] for every robot that does
    not have three joints.  (It does not look at how close the solution
    comes to the target.) *)
Theorem isReachable_says_whether_solved
    (M : MathLib) (config : RobotConfig) (targetPosition : float * float * float) :
  exists b,
    isReachable M config targetPosition = Ok b
    /\ (b = true <->
        exists result s,
          calculateInverseKinematics M config targetPosition = Ok result
          /\ In s (solutions result))
    /\ (numJoints config <> 3%nat -> b = false).
Proof.
  destruct (inverse_shape M config targetPosition) as [r [Hr Hshape]].
  exists (valid r). unfold isReachable. rewrite Hr. cbn [bind].
  split; [reflexivity|].
  destruct Hshape as [[Hnone Hv] | [H3 [t1 [t2 [t3 [_ [Hv Hsol]]]]]]].
  - rewrite Hv. split; [|reflexivity].
    split; [discriminate|].
    intros [result [s [Hres Hs]]]. injection Hres as <-.
    rewrite Hnone in Hs. destruct Hs.
  - rewrite Hv. split; [|intros Hn; contradiction].
    split; [|reflexivity]. intros _. exists r, [t1; t2; t3].
    split; [reflexivity|].
    destruct Hsol as [-> | [u1 [u2 [_ ->]]]]; left; reflexivity.
Qed.

(** ** The loops of the solver *)

(** X6: Each of the two loops runs its body 361 times, not 360: at the angles
    that [k = 0 .. 360] additions of the one-degree step to zero give.  The
    last of them, 360 rounded steps, is still below the rounded [2 * pi]
    and is tried as well; the next one is not.  The loop always reaches its
    exit: it ends as the run of the body over these angles ends. *)
Theorem sweep_tries_361_angles {S : Type} (body : float -> S -> Outcome S) (st : S) :
  sweep sweepFuel body 0 st = visit body (map steppedAngle (seq 0 361)) st
  /\ (steppedAngle 360 <? 2 * Math_PI) = true
  /\ (steppedAngle 361 <? 2 * Math_PI) = false
  /\ stepSize * 180 = Math_PI.
Proof.
  split.
  - rewrite (sweep_visit body _ _ _ sweep_finishes). f_equal.
    generalize sweep_finishes. generalize sweepThetas. intros l H.
    vm_compute in H. injection H as <-. vm_compute. reflexivity.
  - repeat split; vm_compute; reflexivity.
Qed.

(** ** What of a configuration is read *)

(** X7: Of a configuration the class reads the Denavit-Hartenberg parameters
    and nothing else: two configurations with the same parameters get the
    same answers from every method, whatever their joint limits, joint
    types, base offset and tool offset are.  No joint limit is enforced and
    no offset is applied. *)
Theorem only_dh_parameters_are_read (M : MathLib) (config config' : RobotConfig) :
  dhParameters config' = dhParameters config ->
  (forall jointAngles,
      calculateForwardKinematics M config' jointAngles
      = calculateForwardKinematics M config jointAngles)
  /\ (forall targetPosition,
         calculateInverseKinematics M config' targetPosition
         = calculateInverseKinematics M config targetPosition)
  /\ (forall targetPosition,
         isReachable M config' targetPosition = isReachable M config targetPosition)
  /\ getWorkspaceRadius config' = getWorkspaceRadius config
  /\ getNumJoints config' = getNumJoints config.
Proof.
  intros Hdh. destruct config, config'. simpl in Hdh. subst.
  repeat split.
Qed.

Lemma only_dh_parameters_are_read_witness :
  dhParameters mountedRobot = dhParameters threeDOFRobot
  /\ (forall jointAngles,
        calculateForwardKinematics SeriesMath.lib mountedRobot jointAngles
        = calculateForwardKinematics SeriesMath.lib threeDOFRobot jointAngles)
  /\ (forall targetPosition,
         calculateInverseKinematics SeriesMath.lib mountedRobot targetPosition
         = calculateInverseKinematics SeriesMath.lib threeDOFRobot targetPosition)
  /\ (forall targetPosition,
         isReachable SeriesMath.lib mountedRobot targetPosition
         = isReachable SeriesMath.lib threeDOFRobot targetPosition)
  /\ getWorkspaceRadius mountedRobot = getWorkspaceRadius threeDOFRobot
  /\ getNumJoints mountedRobot = getNumJoints threeDOFRobot.
Proof.
  exact (conj eq_refl
           (only_dh_parameters_are_read SeriesMath.lib threeDOFRobot mountedRobot eq_refl)).
Defined.

(** ** The earlier version of the class *)

Lemma mapi_from_overwritten (q : list float) (dh dh' : list DHParameters) :
  Forall2 sameGeometry dh dh' ->
  forall i,
    mapi_from (fun params index =>
                 {| theta := index_or_nan q index;
                    d := d params; a := a params; alpha := alpha params |}) i dh
    = mapi_from (fun params index =>
                   {| theta := index_or_nan q index;
                      d := d params; a := a params; alpha := alpha params |}) i dh'.
Proof.
  induction 1 as [|p p' l l' [Hd [Ha Hal]] _ IH]; intros i; cbn [mapi_from];
    [reflexivity|].
  now rewrite Hd, Ha, Hal, IH.
Qed.

(** X8: The earlier version never reads the [theta] declared for a joint: it
    overwrites it with the joint angle.  Two robots whose links differ only
    in their declared [theta] get the same result, pose or error, for every
    list of angles. *)
Theorem legacy_theta_is_overwritten
    (M : MathLib) (dhParams dhParams' : list DHParameters) (jointAngles : list float) :
  Forall2 sameGeometry dhParams dhParams' ->
  Legacy.calculateForwardKinematics M dhParams jointAngles
  = Legacy.calculateForwardKinematics M dhParams' jointAngles.
Proof.
  intros Hsame. unfold Legacy.calculateForwardKinematics, Legacy.numJoints, mapi.
  rewrite (Forall2_length Hsame), (mapi_from_overwritten jointAngles _ _ Hsame 0).
  reflexivity.
Qed.

Lemma legacy_theta_is_overwritten_witness :
  Forall2 sameGeometry (dhParameters readmeRobot) turnedLinks
  /\ Legacy.calculateForwardKinematics SeriesMath.lib (dhParameters readmeRobot)
       [0.5; 0.25; 0.125]
     = Legacy.calculateForwardKinematics SeriesMath.lib turnedLinks [0.5; 0.25; 0.125].
Proof.
  assert (H : Forall2 sameGeometry (dhParameters readmeRobot) turnedLinks)
    by (repeat constructor).
  exact (conj H (legacy_theta_is_overwritten SeriesMath.lib _ _ [0.5; 0.25; 0.125] H)).
Defined.

Lemma offsetAngles_read (config : RobotConfig) (q : list float) :
  forall i, (i < numJoints config)%nat ->
    index_or_nan (offsetAngles config q) i
    = theta (nth i (dhParameters config) noLink) + index_or_nan q i.
Proof.
  intros i Hi. unfold offsetAngles, mapi.
  rewrite (mapi_from_seq _ noLink).
  set (f := fun k : nat => theta (nth (k - 0) (dhParameters config) noLink)
                           + index_or_nan q k).
  unfold index_or_nan at 1.
  rewrite (nth_indep _ nan (f 0%nat)) by (rewrite length_map, length_seq; exact Hi).
  rewrite map_nth, seq_nth by exact Hi.
  unfold f. now rewrite Nat.sub_0_r.
Qed.

Lemma legacy_transforms (M : MathLib) (config : RobotConfig) (q : list float) :
  map (Legacy.calculateJointTransform M)
      (mapi (fun params index =>
               {| theta := index_or_nan (offsetAngles config q) index;
                  d := d params; a := a params; alpha := alpha params |})
            (dhParameters config))
  = mapi (fun params i => calculateDHTransform M params (index_or_nan q i))
         (dhParameters config).
Proof.
  unfold mapi. rewrite !(mapi_from_seq _ noLink), map_map.
  apply map_ext_in. intros k Hk. apply in_seq in Hk.
  rewrite offsetAngles_read by (unfold numJoints; lia).
  rewrite Nat.sub_0_r. reflexivity.
Qed.

(** X9: How the two versions of the forward kinematics relate.  On a wrong
    number of angles they throw the same error.  On the right number, with
    at least one joint, the later version at the angles [q] is the earlier
    one at the angles [theta i + q i]: the later version adds the joint
    angle to the declared [theta], the earlier one replaces it.  Without
    joints both throw a [TypeError], on no angles. *)
Theorem forward_is_legacy_at_offsets
    (M : MathLib) (config : RobotConfig) (jointAngles : list float) :
  (length jointAngles <> numJoints config ->
   calculateForwardKinematics M config jointAngles
   = Legacy.calculateForwardKinematics M (dhParameters config) jointAngles)
  /\ (length jointAngles = numJoints config -> (1 <= numJoints config)%nat ->
      calculateForwardKinematics M config jointAngles
      = Legacy.calculateForwardKinematics M (dhParameters config)
          (offsetAngles config jointAngles))
  /\ (numJoints config = 0%nat ->
      exists message message',
        calculateForwardKinematics M config [] = Throw (TypeError message)
        /\ Legacy.calculateForwardKinematics M (dhParameters config) []
           = Throw (TypeError message')).
Proof.
  split; [|split].
  - intros Hlen. unfold calculateForwardKinematics, Legacy.calculateForwardKinematics,
      Legacy.numJoints, numJoints in *.
    apply Nat.eqb_neq in Hlen. now rewrite Hlen.
  - intros Hlen Hn.
    unfold calculateForwardKinematics, Legacy.calculateForwardKinematics, Legacy.numJoints.
    fold (numJoints config).
    assert (Hoff : length (offsetAngles config jointAngles) = numJoints config).
    { unfold offsetAngles, mapi. rewrite (mapi_from_seq _ noLink), length_map, length_seq.
      reflexivity. }
    rewrite Hoff, Hlen, Nat.eqb_refl. cbn [negb]. cbv iota zeta.
    rewrite legacy_transforms.
    destruct (mapi _ (dhParameters config)) as [|first others] eqn:Hts.
    + apply (f_equal (@length _)) in Hts. unfold mapi in Hts.
      rewrite (mapi_from_seq _ noLink), length_map, length_seq in Hts.
      unfold numJoints in Hn. cbn [length] in Hts. lia.
    + unfold Legacy.multiplyInOrder, reduce.
      destruct (reduce_from Matrix.multiply first others); reflexivity.
  - intros Hn. unfold numJoints in Hn. apply length_zero_iff_nil in Hn.
    unfold calculateForwardKinematics, Legacy.calculateForwardKinematics,
      Legacy.numJoints, numJoints. rewrite Hn. cbn.
    eexists. eexists. split; reflexivity.
Qed.

Lemma forward_is_legacy_at_offsets_witness :
  length [0.5; 0.25; 0.125] = numJoints readmeRobot
  /\ (1 <= numJoints readmeRobot)%nat
  /\ calculateForwardKinematics SeriesMath.lib readmeRobot [0.5; 0.25; 0.125]
     = Legacy.calculateForwardKinematics SeriesMath.lib (dhParameters readmeRobot)
         (offsetAngles readmeRobot [0.5; 0.25; 0.125]).
Proof.
  assert (H : (1 <= numJoints readmeRobot)%nat) by (vm_compute; lia).
  exact (conj eq_refl (conj H
           (proj1 (proj2 (forward_is_legacy_at_offsets SeriesMath.lib readmeRobot
                            [0.5; 0.25; 0.125]))
                  eq_refl H))).
Defined.

(** ** The visualizer *)

Lemma skipn_cons {A : Type} (dflt : A) (l : list A) :
  forall i x l', skipn i l = x :: l' ->
    (i < length l)%nat /\ nth i l dflt = x /\ skipn (S i) l = l'.
Proof.
  induction l as [|y l IH]; intros i x l' H.
  - destruct i; discriminate.
  - destruct i as [|i].
    + injection H as <- <-. cbn [length]. repeat split. lia.
    + cbn [skipn] in H. destruct (IH i x l' H) as [Hi [Hx Hl]].
      cbn [length]. repeat split; [lia | exact Hx | exact Hl].
Qed.

Module VisualizerFacts.
Import Visualizer.

Section VisualizerFacts.

Variable M : MathLib.

Lemma chain_shaped (config : RobotConfig) (angles : list float) (n : nat) :
  Matrix.shaped 4 4 (chain (jointTransform M config angles) n).
Proof.
  induction n as [|n IH]; cbn [chain].
  - apply calculateDHTransform_shaped.
  - apply (MatrixFacts.product_shaped 4 3 4); [exact IH|].
    apply calculateDHTransform_shaped.
Qed.

(** The loop leaves in [transforms] the chains up to each joint. *)
Lemma cumulativeTransforms_chains (config : RobotConfig) (angles : list float) :
  forall parameters i,
    parameters = skipn i (dhParameters config) ->
    (i <= numJoints config)%nat ->
    cumulativeTransforms M angles i parameters
      (map (chain (jointTransform M config angles)) (seq 0 i))
    = Ok (map (chain (jointTransform M config angles)) (seq 0 (numJoints config))).
Proof.
  induction parameters as [|params parameters IH]; intros i Hskip Hle;
    cbn [cumulativeTransforms].
  - assert (Hi : i = numJoints config).
    { unfold numJoints in *. symmetry in Hskip.
      apply (f_equal (@length _)) in Hskip. rewrite length_skipn in Hskip.
      cbn [length] in Hskip. lia. }
    now rewrite Hi.
  - symmetry in Hskip.
    destruct (skipn_cons noLink _ _ _ _ Hskip) as [Hi [Hparams Hrest]].
    fold (numJoints config) in Hi.
    assert (Ht : calculateDHTransform M params (index_or_nan angles i)
                 = jointTransform M config angles i).
    { unfold jointTransform, index_or_nan. now rewrite Hparams. }
    cbv zeta. rewrite Ht.
    destruct i as [|k].
    + cbn [Nat.eqb seq map app bind].
      apply (IH 1%nat); [now symmetry | exact Hi].
    + cbn [Nat.eqb]. replace (S k - 1)%nat with k by lia.
      assert (Hprev : nth_error (map (chain (jointTransform M config angles))
                                     (seq 0 (S k))) k
                      = Some (chain (jointTransform M config angles) k)).
      { rewrite nth_error_map, nth_error_seq.
        destruct (Nat.ltb_spec k (S k)) as [_|Hk]; [reflexivity | lia]. }
      rewrite Hprev.
      rewrite (MatrixFacts.multiply_shaped 3 3 4)
        by (apply chain_shaped || apply calculateDHTransform_shaped).
      cbn [bind].
      replace (map (chain (jointTransform M config angles)) (seq 0 (S k))
               ++ [Matrix.product (chain (jointTransform M config angles) k)
                     (jointTransform M config angles (S k))])
        with (map (chain (jointTransform M config angles)) (seq 0 (S (S k))))
        by (rewrite (seq_S (S k)), map_app; reflexivity).
      apply IH; [now symmetry | exact Hi].
Qed.

Lemma forward_returned (config : RobotConfig) (angles : list float) (pose : Pose) :
  calculateForwardKinematics M config angles = Ok pose ->
  exists n, numJoints config = S n /\ length angles = S n.
Proof.
  unfold calculateForwardKinematics.
  destruct (length angles =? numJoints config)%nat eqn:Hlen;
    cbn [negb]; [|discriminate].
  apply Nat.eqb_eq in Hlen. rewrite Hlen. unfold numJoints in *.
  destruct (dhParameters config) as [|p l]; [discriminate|].
  intros _. exists (length l). split; reflexivity.
Qed.

(** What a redraw shows when the number of angles is right. *)
Lemma redraw_drawn (v : t) (config : RobotConfig) (n : nat) :
  robot v = Some config ->
  numJoints config = S n ->
  length (jointAngles v) = S n ->
  updateRobotModel M v
  = Ok (Some {| shownPosition :=
                  position (poseOf (chain (jointTransform M config (jointAngles v)) n));
                jointPoints :=
                  map (fun i => position
                                  (poseOf (chain (jointTransform M config (jointAngles v)) i)))
                      (seq 0 (S n)) |}).
Proof.
  intros Hrobot Hn Hlen. unfold updateRobotModel. rewrite Hrobot.
  rewrite (proj1 (forward_chain M config (jointAngles v) n Hn Hlen)). cbn [bind].
  pose proof (cumulativeTransforms_chains config (jointAngles v)
                (dhParameters config) 0 eq_refl (Nat.le_0_l _)) as Hloop.
  cbn [seq map] in Hloop. rewrite Hloop.
  cbn [bind position]. rewrite Hn, map_map. reflexivity.
Qed.

Lemma assign_length (array : list float) (index : nat) (x : float) :
  (index < length array)%nat -> length (assign array index x) = length array.
Proof.
  intros Hi. unfold assign.
  destruct (Nat.ltb_spec index (length array)) as [_|Hge]; [|lia].
  rewrite length_app, length_firstn. cbn [length]. rewrite length_skipn. lia.
Qed.

Lemma handle_consistent (e : Event) (v : t) :
  jointed e -> consistent v ->
  consistent (fst (handle M e v)) /\ exists drawn, snd (handle M e v) = Ok drawn.
Proof.
  intros He [Hcontrols Hrobot]. destruct e as [config|index value]; cbn [handle jointed] in *.
  - unfold loadRobot. cbv zeta.
    destruct (numJoints config) as [|n] eqn:Hn; [lia|].
    rewrite (redraw_drawn
               {| robot := Some config;
                  jointAngles := repeat 0 (length (dhParameters config));
                  jointControls := jointControls v |} config n eq_refl Hn)
      by (cbn [jointAngles]; rewrite repeat_length; exact Hn).
    cbn [fst snd]. split; [|eexists; reflexivity].
    split; cbn [jointControls jointAngles robot]; [reflexivity|].
    intros config' [= <-]. rewrite repeat_length. fold (numJoints config). lia.
  - destruct (Nat.ltb_spec index (jointControls v)) as [Hi|Hi];
      [|cbn [fst snd]; split; [split; assumption | eexists; reflexivity]].
    unfold onInput. cbv zeta. cbn [fst snd].
    rewrite Hcontrols in Hi.
    pose proof (assign_length (jointAngles v) index (value * Math_PI / 180) Hi) as Hlen.
    split.
    + split; cbn [jointControls jointAngles robot]; [congruence|].
      intros config Hc. rewrite Hlen. now apply Hrobot.
    + destruct (robot v) as [config|] eqn:Hc.
      * destruct (Hrobot config eq_refl) as [Hn Hpos].
        destruct (numJoints config) as [|n] eqn:Hnum; [lia|].
        rewrite (redraw_drawn
                   {| robot := Some config;
                      jointAngles := assign (jointAngles v) index (value * Math_PI / 180);
                      jointControls := jointControls v |} config n eq_refl Hnum)
          by (cbn [jointAngles]; congruence).
        eexists. reflexivity.
      * unfold updateRobotModel. cbn [robot]. eexists. reflexivity.
Qed.

Lemma run_consistent (events : list Event) :
  Forall jointed events ->
  forall v, consistent v ->
    consistent (fst (run M events v))
    /\ Forall (fun shown => exists drawn, shown = Ok drawn) (snd (run M events v)).
Proof.
  induction 1 as [|e events He _ IH]; intros v Hv; cbn [run].
  - split; [exact Hv | constructor].
  - destruct (handle_consistent e v He Hv) as [Hv' Hshown].
    destruct (handle M e v) as [v' shown]. cbn [fst snd] in *.
    specialize (IH v' Hv'). destruct (run M events v') as [v'' rest].
    cbn [fst snd] in *. destruct IH as [Hv'' Hrest].
    split; [exact Hv'' | constructor; assumption].
Qed.

End VisualizerFacts.
End VisualizerFacts.

(** X10: When the forward kinematics returns, the redraw shows its position and
    draws one point per joint: joint [i] at the end of the chain of the
    joints up to it, so that the last point, which carries the tripod, is
    the position shown.  When the forward kinematics throws, so does the
    redraw. *)
Theorem redraw_draws_the_chain (M : MathLib) (v : Visualizer.t) (config : RobotConfig) :
  Visualizer.robot v = Some config ->
  (forall pose,
      calculateForwardKinematics M config (Visualizer.jointAngles v) = Ok pose ->
      exists drawn,
        Visualizer.updateRobotModel M v = Ok (Some drawn)
        /\ Visualizer.shownPosition drawn = position pose
        /\ length (Visualizer.jointPoints drawn) = numJoints config
        /\ (forall i, (i < numJoints config)%nat ->
              nth_error (Visualizer.jointPoints drawn) i
              = Some (position
                        (poseOf (chain (jointTransform M config (Visualizer.jointAngles v))
                                       i))))
        /\ nth_error (Visualizer.jointPoints drawn) (numJoints config - 1)
           = Some (position pose))
  /\ (forall e,
         calculateForwardKinematics M config (Visualizer.jointAngles v) = Throw e ->
         Visualizer.updateRobotModel M v = Throw e).
Proof.
  intros Hrobot. split.
  - intros pose Hpose.
    destruct (VisualizerFacts.forward_returned M config _ pose Hpose) as [n [Hn Hlen]].
    rewrite (VisualizerFacts.redraw_drawn M v config n Hrobot Hn Hlen).
    rewrite (proj1 (forward_chain M config _ n Hn Hlen)) in Hpose.
    injection Hpose as <-.
    eexists. split; [reflexivity|]. cbn [Visualizer.shownPosition Visualizer.jointPoints].
    split; [reflexivity|].
    split; [now rewrite length_map, length_seq|].
    assert (Hnth : forall i, (i < S n)%nat ->
              nth_error
                (map (fun i => position
                        (poseOf (chain (jointTransform M config (Visualizer.jointAngles v))
                                       i)))
                     (seq 0 (S n))) i
              = Some (position
                        (poseOf (chain (jointTransform M config (Visualizer.jointAngles v))
                                       i)))).
    { intros i Hi. rewrite nth_error_map, nth_error_seq.
      destruct (Nat.ltb_spec i (S n)) as [_|Hge]; [reflexivity | lia]. }
    rewrite Hn. split; [exact Hnth|].
    replace (S n - 1)%nat with n by lia. apply Hnth. lia.
  - intros e He. unfold Visualizer.updateRobotModel. rewrite Hrobot, He. reflexivity.
Qed.

Lemma redraw_draws_the_chain_witness :
  let v := readmePage [0.5; 0.25; 0.125] in
  Visualizer.robot v = Some readmeRobot
  /\ (forall pose,
        calculateForwardKinematics SeriesMath.lib readmeRobot (Visualizer.jointAngles v)
        = Ok pose ->
        exists drawn,
          Visualizer.updateRobotModel SeriesMath.lib v = Ok (Some drawn)
          /\ Visualizer.shownPosition drawn = position pose
          /\ length (Visualizer.jointPoints drawn) = numJoints readmeRobot
          /\ (forall i, (i < numJoints readmeRobot)%nat ->
                nth_error (Visualizer.jointPoints drawn) i
                = Some (position
                          (poseOf (chain (jointTransform SeriesMath.lib readmeRobot
                                            (Visualizer.jointAngles v)) i))))
          /\ nth_error (Visualizer.jointPoints drawn) (numJoints readmeRobot - 1)
             = Some (position pose))
  /\ (forall e,
         calculateForwardKinematics SeriesMath.lib readmeRobot (Visualizer.jointAngles v)
         = Throw e ->
         Visualizer.updateRobotModel SeriesMath.lib v = Throw e).
Proof.
  exact (conj eq_refl
           (redraw_draws_the_chain SeriesMath.lib (readmePage [0.5; 0.25; 0.125])
              readmeRobot eq_refl)).
Defined.

(** X11: Whatever robots with at least one joint are loaded and whatever
    controls are moved, in any order, from the start of the page: there are
    as many controls as angles, as many angles as the loaded robot has
    joints, and every redraw returns.  The error for a wrong number of
    angles cannot be met from the page. *)
Theorem visualizer_keeps_the_angle_count (M : MathLib) (events : list Visualizer.Event) :
  Forall jointed events ->
  let v := fst (Visualizer.run M events Visualizer.initial) in
  let shown := snd (Visualizer.run M events Visualizer.initial) in
  Visualizer.jointControls v = length (Visualizer.jointAngles v)
  /\ (forall config, Visualizer.robot v = Some config ->
        length (Visualizer.jointAngles v) = numJoints config)
  /\ length shown = length events
  /\ Forall (fun outcome => exists drawn, outcome = Ok drawn) shown.
Proof.
  intros Hevents.
  assert (Hstart : consistent Visualizer.initial).
  { split; [reflexivity | intros config; discriminate]. }
  destruct (VisualizerFacts.run_consistent M events Hevents _ Hstart) as [[Hc Hr] Hshown].
  cbv zeta. split; [exact Hc|]. split; [intros config Hconfig; now apply Hr|].
  split; [|exact Hshown].
  clear. generalize Visualizer.initial.
  induction events as [|e events IH]; intros v; cbn [Visualizer.run]; [reflexivity|].
  destruct (Visualizer.handle M e v) as [v' s]. specialize (IH v').
  destruct (Visualizer.run M events v') as [v'' rest]. cbn [snd length] in *.
  now rewrite IH.
Qed.

Lemma visualizer_keeps_the_angle_count_witness :
  Forall jointed session
  /\ let v := fst (Visualizer.run SeriesMath.lib session Visualizer.initial) in
     let shown := snd (Visualizer.run SeriesMath.lib session Visualizer.initial) in
     Visualizer.jointControls v = length (Visualizer.jointAngles v)
     /\ (forall config, Visualizer.robot v = Some config ->
           length (Visualizer.jointAngles v) = numJoints config)
     /\ length shown = length session
     /\ Forall (fun outcome => exists drawn, outcome = Ok drawn) shown.
Proof.
  assert (H : Forall jointed session).
  { repeat constructor; vm_compute; lia. }
  exact (conj H (visualizer_keeps_the_angle_count SeriesMath.lib session H)).
Defined.

(** X12: A robot without joints breaks the count of angles.  Loading it
    throws inside the redraw, before the controls are rebuilt: the page
    keeps the controls of the robot before, over an empty list of angles.
    Moving any of them then throws the error for a wrong number of
    angles. *)
Theorem jointless_robot_leaves_stale_controls
    (M : MathLib) (config : RobotConfig) (v : Visualizer.t) (index : nat) (value : float) :
  numJoints config = 0%nat ->
  (index < Visualizer.jointControls v)%nat ->
  let loaded := fst (Visualizer.handle M (Visualizer.Load config) v) in
  snd (Visualizer.handle M (Visualizer.Load config) v)
  = Throw (TypeError "Reduce of empty array with no initial value")
  /\ Visualizer.jointControls loaded = Visualizer.jointControls v
  /\ Visualizer.jointAngles loaded = []
  /\ snd (Visualizer.handle M (Visualizer.Input index value) loaded)
     = Throw (Error ("Expected 0 joint angles, got " ++ show_nat (S index))%string).
Proof.
  intros Hn Hi. unfold numJoints in Hn. apply length_zero_iff_nil in Hn.
  assert (Hload : Visualizer.handle M (Visualizer.Load config) v
                  = ({| Visualizer.robot := Some config;
                        Visualizer.jointAngles := [];
                        Visualizer.jointControls := Visualizer.jointControls v |},
                     Throw (TypeError "Reduce of empty array with no initial value"))).
  { cbn [Visualizer.handle].
    unfold Visualizer.loadRobot, Visualizer.updateRobotModel, calculateForwardKinematics,
      numJoints.
    cbn [Visualizer.robot Visualizer.jointAngles]. rewrite Hn. reflexivity. }
  cbv zeta. rewrite Hload. cbn [fst snd Visualizer.jointControls Visualizer.jointAngles].
  split; [reflexivity|]. split; [reflexivity|]. split; [reflexivity|].
  cbn [Visualizer.handle Visualizer.jointControls].
  destruct (Nat.ltb_spec index (Visualizer.jointControls v)) as [_|Hge]; [|lia].
  unfold Visualizer.onInput, Visualizer.updateRobotModel, calculateForwardKinematics,
    numJoints.
  cbn [snd Visualizer.robot Visualizer.jointAngles]. rewrite Hn.
  unfold Visualizer.assign. cbn [length Nat.ltb Nat.leb app].
  rewrite Nat.sub_0_r, length_app, repeat_length. cbn [length Nat.eqb].
  replace (index + 1)%nat with (S index) by lia. reflexivity.
Qed.

Lemma jointless_robot_leaves_stale_controls_witness :
  numJoints jointlessRobot = 0%nat
  /\ (1 < Visualizer.jointControls (readmePage [0; 0; 0]%float))%nat
  /\ let loaded :=
       fst (Visualizer.handle SeriesMath.lib (Visualizer.Load jointlessRobot)
              (readmePage [0; 0; 0])) in
     snd (Visualizer.handle SeriesMath.lib (Visualizer.Load jointlessRobot)
            (readmePage [0; 0; 0]))
     = Throw (TypeError "Reduce of empty array with no initial value")
     /\ Visualizer.jointControls loaded = Visualizer.jointControls (readmePage [0; 0; 0])
     /\ Visualizer.jointAngles loaded = []
     /\ snd (Visualizer.handle SeriesMath.lib (Visualizer.Input 1 45) loaded)
        = Throw (Error ("Expected 0 joint angles, got " ++ show_nat 2)%string).
Proof.
  assert (H : (1 < Visualizer.jointControls (readmePage [0; 0; 0]%float))%nat)
    by (vm_compute; lia).
  exact (conj eq_refl (conj H
           (jointless_robot_leaves_stale_controls SeriesMath.lib jointlessRobot
              (readmePage [0; 0; 0]) 1 45 eq_refl H))).
Defined.

(** ** The bundled configurations *)

(** X13: Of the names the select box of the page offers, each one loads the
    configuration bundled under it.  A name that is neither bundled nor
    inherited from [Object.prototype] is rejected with the error that
    carries the name.  A name inherited from [Object.prototype], such as
    [toString], is not rejected: the call hands back the inherited member
    as if it were a configuration. *)
Theorem loadRobotConfig_outcomes (staubliConfig kukaConfig abbConfig : RobotConfig) :
  let load := RobotConfigs.loadRobotConfig staubliConfig kukaConfig abbConfig in
  (forall robotName, In robotName RobotConfigs.selectOptions ->
     exists config,
       load robotName = Ok (RobotConfigs.Configuration config)
       /\ In (robotName, config)
             (RobotConfigs.configs staubliConfig kukaConfig abbConfig))
  /\ load "staubli_rx90b"%string = Ok (RobotConfigs.Configuration staubliConfig)
  /\ load "kuka_kr6"%string = Ok (RobotConfigs.Configuration kukaConfig)
  /\ load "abb_irb120"%string = Ok (RobotConfigs.Configuration abbConfig)
  /\ (forall robotName,
        ~ In robotName RobotConfigs.selectOptions ->
        ~ In robotName RobotConfigs.objectPrototype ->
        load robotName
        = Throw (Error ("Robot configuration not found: " ++ robotName)%string))
  /\ (forall robotName, In robotName RobotConfigs.objectPrototype ->
        load robotName = Ok (RobotConfigs.Inherited robotName)).
Proof.
  cbv zeta. split; [|split; [reflexivity | split; [reflexivity | split; [reflexivity|]]]].
  - intros robotName Hin. cbn in Hin.
    destruct Hin as [<- | [<- | [<- | []]]]; eexists; (split; [reflexivity|]); cbn; tauto.
  - split.
    + intros robotName Hopt Hproto.
      unfold RobotConfigs.loadRobotConfig, RobotConfigs.lookup, RobotConfigs.configs.
      cbn [RobotConfigs.ownProperty].
      repeat match goal with
      | |- context [String.eqb ?k robotName] =>
          destruct (String.eqb_spec k robotName) as [Heq|_];
            [exfalso; apply Hopt; rewrite <- Heq; cbn; tauto|]
      end.
      destruct (existsb (String.eqb robotName) RobotConfigs.objectPrototype) eqn:Hex;
        [|reflexivity].
      exfalso. apply Hproto. apply existsb_exists in Hex.
      destruct Hex as [k [Hk Heq]]. apply String.eqb_eq in Heq. now subst.
    + intros robotName Hin. cbn in Hin.
      repeat (destruct Hin as [<- | Hin]; [reflexivity|]). destruct Hin.
Qed.

(** ** Targets that are not numbers *)

Lemma div_nan_l u : nan / u = nan.
Proof. apply Prim2SF_inj. rewrite div_spec. reflexivity. Qed.

Ltac nan_through :=
  repeat rewrite ?FloatOrder.mul_nan_l, ?FloatOrder.mul_nan_r,
                 ?FloatOrder.add_nan_l, ?FloatOrder.add_nan_r,
                 ?FloatOrder.sub_nan_l, ?FloatOrder.sub_nan_r, ?div_nan_l;
  change (sqrt nan) with nan; change (abs nan) with nan.

Lemma nan_coordinate_candidate (M : MathLib) (config : RobotConfig)
    (j0 j1 j2 : DHParameters) (x y z : float) :
  dhParameters config = [j0; j1; j2] ->
  x = nan \/ y = nan ->
  gtb (sqrt (x * x + y * y)) (a j0 + a j1 + a j2) = false
  /\ exists c,
       candidateOf (elbowDownStep M config x y z (a j0) (a j1) (a j2) (d j0) (d j1)) 0
       = Some c.
Proof.
  intros Hdh Hnan. unfold gtb, candidateOf, elbowDownStep. cbv zeta.
  destruct Hnan as [-> | ->]; do 4 nan_through; unfold gtb;
    rewrite !FloatOrder.ltb_nan_r; (split; [reflexivity|]);
    match goal with
    | |- context [calculateForwardKinematics M config [?t1; ?t2; ?t3]] =>
        destruct (verification_returns M config j0 j1 j2 Hdh t1 t2 t3) as [pose ->]
    end;
    cbn [bind keepBest]; eexists; reflexivity.
Qed.

(** X14: A target whose x or y coordinate is NaN is reported reachable.  On
    three joints every test of the solver compares a NaN and is passed: the
    reach test does not reject the target, the first angle of the sweep
    yields a candidate, and the solver answers [valid = true] with a
    solution, on every engine. *)
Theorem nan_target_is_reported_reachable
    (M : MathLib) (config : RobotConfig) (x y z : float) :
  numJoints config = 3%nat ->
  x = nan \/ y = nan ->
  isReachable M config (x, y, z) = Ok true
  /\ exists result,
       calculateInverseKinematics M config (x, y, z) = Ok result
       /\ valid result = true
       /\ (1 <= length (solutions result))%nat.
Proof.
  intros H3 Hnan. destruct (three_links config H3) as [j0 [j1 [j2 Hdh]]].
  destruct (nan_coordinate_candidate M config j0 j1 j2 x y z Hdh Hnan) as [Hreach [c Hc]].
  destruct (found_at_zero M config j0 j1 j2 Hdh x y z c Hreach Hc)
    as [result [Hres [Hvalid Hlen]]].
  split; [|exists result; repeat split; assumption].
  unfold isReachable. rewrite Hres. cbn [bind]. now rewrite Hvalid.
Qed.

Lemma nan_target_is_reported_reachable_witness :
  numJoints testRobot = 3%nat
  /\ (nan = nan \/ 0 = nan)
  /\ isReachable SeriesMath.lib testRobot (nan, 0, 0) = Ok true
  /\ exists result,
       calculateInverseKinematics SeriesMath.lib testRobot (nan, 0, 0) = Ok result
       /\ valid result = true
       /\ (1 <= length (solutions result))%nat.
Proof.
  exact (conj eq_refl (conj (or_introl eq_refl)
           (nan_target_is_reported_reachable SeriesMath.lib testRobot nan 0 0
              eq_refl (or_introl eq_refl)))).
Defined.
